(** * payment-splitter: the Django models of [backend/apps] and their integrity rules

    The repository declares six models (Chain, Wallet, ERC20Token,
    PaymentGroup, Payee, Payment).  What the declarations mean is fixed by
    Django's ORM: a [ForeignKey] is a column holding the primary key of a row
    of the target table, checked by the database on every write and followed
    by [Model.delete()] (on_delete=CASCADE); a [UniqueConstraint] with a
    [condition] is a partial unique index; [validators] and [clean()] run in
    [full_clean()], and [save()] runs none of them.

    Rows are records, tables are finite maps from primary key to row, and an
    operation takes the database and returns its outcome with the database
    after it.  A failed write is rolled back: it returns the database it was
    given.

    The sources configure no database.  Where the backend shows, the model
    follows SQLite, the backend of a Django project that names no other: an
    integer column holds up to 2^63 - 1, and an auto-increment key is one
    past the largest key the table ever held.  A string is the sequence of
    its characters. *)

From Stdlib Require Import ZArith NArith Lia Ascii String.
From stdpp Require Import base option strings gmap fin_maps.

Local Open Scope Z_scope.

(** ** Outcomes *)

(** [ValidationError] is django.core.exceptions.ValidationError raised with
    a message, as [clean()] and a validator do; [ValidationErrors] is the
    one [full_clean()] raises, with the keys of its error dict: the names of
    the fields that failed, and __all__ for what [clean()] and the
    constraints report.  The kinds of error a write can provoke are told
    apart by what raised them: a unique index, a foreign key, or a value
    that does not fit its integer column.  [DoesNotExist] is what reading a
    related object through a key that names no row raises. *)
Inductive error : Type :=
  | ValidationError (message : string)
  | ValidationErrors (fields : gset string)
  | UniquenessViolation (constraint : string)
  | ReferentialIntegrityError (column : string)
  | OutOfRange (column : string)
  | DoesNotExist (model : string).

Inductive result (A : Type) : Type :=
  | Ok (a : A)
  | Err (e : error).
Arguments Ok {A} a.
Arguments Err {A} e.

Definition is_ok {A} (r : result A) : bool :=
  match r with Ok _ => true | Err _ => false end.

(** Python's [bool(x)] for an [x] that is [None] or a model instance: Django
    models define neither [__bool__] nor [__len__], so an instance is true. *)
Definition truthy {A} (x : option A) : bool :=
  match x with Some _ => true | None => false end.

(** Reading a foreign-key attribute of an instance, as [self.token] does:
    [None] when the column is null, the row the key names otherwise, and
    [DoesNotExist] of the target model when the key names no row. *)
Definition related {A} (model : string) (table : gmap Z A) (fk : option Z)
  : result (option A) :=
  match fk with
  | None => Ok None
  | Some k =>
      match table !! k with
      | Some row => Ok (Some row)
      | None => Err (DoesNotExist model)
      end
  end.

(** The largest value an integer column stores. *)
Definition integer_max : N := 9223372036854775807.

(** ** apps/chain/models.py *)

Module Chain.
(** [chain_id] is a PositiveIntegerField: the column holds 0 and up. *)
Record t : Type := mk {
  name : string;               (* NamedModel *)
  chain_id : N;
  native_currency : string
}.
End Chain.

(** ** apps/wallet/models.py *)

Module Wallet.
(** Modelled from the spec: the columns of [AbstractWallet] come from the
    siwe_auth package, which is not among the sources.  The spec lists
    ethereum_address (the unique string that identifies the wallet, used
    here as the key of the table), ens_name, ens_avatar, created, is_admin
    and is_active; [SoftDeleteModel] and [TimeStampedModel] add the rest. *)
Record t : Type := mk {
  deleted_at : option Z;       (* SoftDeleteModel *)
  restored_at : option Z;
  ens_name : option string;
  ens_avatar : option string;
  created : Z;
  is_admin : bool;
  is_active : bool;
  created_at : Z;              (* TimeStampedModel *)
  updated_at : Z
}.
End Wallet.

(** ** apps/tokens/models.py *)

Module ERC20Token.
Record t : Type := mk {
  deleted_at : option Z;       (* SoftDeleteModel *)
  restored_at : option Z;
  created_at : Z;              (* TimeStampedModel *)
  updated_at : Z;
  name : string;               (* NamedModel *)
  symbol : string;
  address : string;
  chain : Z                    (* ForeignKey(Chain), not null *)
}.

(** [auto_now_add] fills created_at when the row is inserted, [auto_now]
    fills updated_at on every save. *)
Definition pre_save (add : bool) (now : Z) (self : t) : t :=
  mk (deleted_at self) (restored_at self)
     (if add then now else created_at self) now
     (name self) (symbol self) (address self) (chain self).

Definition set_deleted_at (d : option Z) (self : t) : t :=
  mk d (restored_at self) (created_at self) (updated_at self)
     (name self) (symbol self) (address self) (chain self).
End ERC20Token.

(** ** apps/payment/models.py *)

Module PaymentGroup.
Record t : Type := mk {
  deleted_at : option Z;       (* SoftDeleteModel *)
  restored_at : option Z;
  created_at : Z;              (* TimeStampedModel *)
  updated_at : Z;
  wallet : string;             (* WalletRelatedModel: ForeignKey(Wallet) *)
  name : string;               (* NamedModel *)
  detail : option string;
  chain : option Z;            (* ForeignKey(Chain), null=True *)
  token : option Z             (* ForeignKey(ERC20Token), null=True *)
}.

Definition pre_save (add : bool) (now : Z) (self : t) : t :=
  mk (deleted_at self) (restored_at self)
     (if add then now else created_at self) now
     (wallet self) (name self) (detail self) (chain self) (token self).

Definition set_deleted_at (d : option Z) (self : t) : t :=
  mk d (restored_at self) (created_at self) (updated_at self)
     (wallet self) (name self) (detail self) (chain self) (token self).

(** [bool(self.token)]: the attribute is read through the token table. *)
Definition use_erc20 (tokens : gmap Z ERC20Token.t) (self : t) : result bool :=
  match related "ERC20Token" tokens (token self) with
  | Err e => Err e
  | Ok tok => Ok (truthy tok)
  end.

(** [not bool(self.token)] *)
Definition use_native_currency (tokens : gmap Z ERC20Token.t) (self : t)
  : result bool :=
  match related "ERC20Token" tokens (token self) with
  | Err e => Err e
  | Ok tok => Ok (negb (truthy tok))
  end.

Definition clean_message : string :=
  "If a token is specified, it must belong to the same chain.".

(** [if self.token and self.chain != self.token.chain: raise ...]: the
    operands are read in this order, [self.token], [self.chain] and
    [self.token.chain], each through its table.  Two model instances are
    equal when their primary keys are, and [None] differs from every
    instance. *)
Definition clean (chains : gmap Z Chain.t) (tokens : gmap Z ERC20Token.t)
    (self : t) : result unit :=
  match related "ERC20Token" tokens (token self) with
  | Err e => Err e
  | Ok None => Ok tt
  | Ok (Some tok) =>
      match related "Chain" chains (chain self) with
      | Err e => Err e
      | Ok _ =>
          match related "Chain" chains (Some (ERC20Token.chain tok)) with
          | Err e => Err e
          | Ok _ =>
              if bool_decide (chain self ≠ Some (ERC20Token.chain tok))
              then Err (ValidationError clean_message)
              else Ok tt
          end
      end
  end.
End PaymentGroup.

Module Payee.
(** [wallet] is the address string of the payee (the spec calls it
    wallet_address); [amount] is a PositiveIntegerField. *)
Record t : Type := mk {
  deleted_at : option Z;       (* SoftDeleteModel *)
  restored_at : option Z;
  name : string;               (* NamedModel *)
  wallet : string;
  payment_group : Z;           (* ForeignKey(PaymentGroup), not null *)
  amount : N
}.

Definition set_deleted_at (d : option Z) (self : t) : t :=
  mk d (restored_at self) (name self) (wallet self) (payment_group self)
     (amount self).
End Payee.

Module Payment.
Record t : Type := mk {
  deleted_at : option Z;       (* SoftDeleteModel *)
  restored_at : option Z;
  created_at : Z;              (* TimeStampedModel *)
  updated_at : Z;
  payee : Z                    (* ForeignKey(Payee), not null *)
}.

Definition pre_save (add : bool) (now : Z) (self : t) : t :=
  mk (deleted_at self) (restored_at self)
     (if add then now else created_at self) now (payee self).

Definition set_deleted_at (d : option Z) (self : t) : t :=
  mk d (restored_at self) (created_at self) (updated_at self) (payee self).
End Payment.

(** ** The database *)

(** The six tables, and for each auto-increment table the largest key it
    ever held. *)
Record DB : Type := mkDB {
  chains : gmap Z Chain.t;
  wallets : gmap string Wallet.t;
  tokens : gmap Z ERC20Token.t;
  groups : gmap Z PaymentGroup.t;
  payees : gmap Z Payee.t;
  payments : gmap Z Payment.t;
  chain_seq : Z;
  token_seq : Z;
  group_seq : Z;
  payee_seq : Z;
  payment_seq : Z
}.

Definition empty_db : DB := mkDB ∅ ∅ ∅ ∅ ∅ ∅ 0 0 0 0 0.

(** The key the database hands to a new row of an auto-increment table: one
    past the largest key the table holds or ever held. *)
Definition next_pk {A} (table : gmap Z A) (seq : Z) : Z :=
  1 + Z.max seq (map_fold (λ k _ top, Z.max k top) 0 table).

(** The key a save writes to: the instance's own, or a new one. *)
Definition target {A} (table : gmap Z A) (seq : Z) (self : option Z) : Z :=
  default (next_pk table seq) self.

Definition set_chains (m : gmap Z Chain.t) (db : DB) : DB :=
  mkDB m (wallets db) (tokens db) (groups db) (payees db) (payments db)
    (chain_seq db) (token_seq db) (group_seq db) (payee_seq db)
    (payment_seq db).
Definition set_wallets (m : gmap string Wallet.t) (db : DB) : DB :=
  mkDB (chains db) m (tokens db) (groups db) (payees db) (payments db)
    (chain_seq db) (token_seq db) (group_seq db) (payee_seq db)
    (payment_seq db).
Definition set_tokens (m : gmap Z ERC20Token.t) (db : DB) : DB :=
  mkDB (chains db) (wallets db) m (groups db) (payees db) (payments db)
    (chain_seq db) (token_seq db) (group_seq db) (payee_seq db)
    (payment_seq db).
Definition set_groups (m : gmap Z PaymentGroup.t) (db : DB) : DB :=
  mkDB (chains db) (wallets db) (tokens db) m (payees db) (payments db)
    (chain_seq db) (token_seq db) (group_seq db) (payee_seq db)
    (payment_seq db).
Definition set_payees (m : gmap Z Payee.t) (db : DB) : DB :=
  mkDB (chains db) (wallets db) (tokens db) (groups db) m (payments db)
    (chain_seq db) (token_seq db) (group_seq db) (payee_seq db)
    (payment_seq db).

(** Writing a row under a key: the table gets the row and remembers the
    key. *)
Definition put_chain (key : Z) (row : Chain.t) (db : DB) : DB :=
  mkDB (<[key := row]> (chains db)) (wallets db) (tokens db) (groups db)
    (payees db) (payments db)
    (Z.max (chain_seq db) key) (token_seq db) (group_seq db) (payee_seq db)
    (payment_seq db).
Definition put_token (key : Z) (row : ERC20Token.t) (db : DB) : DB :=
  mkDB (chains db) (wallets db) (<[key := row]> (tokens db)) (groups db)
    (payees db) (payments db)
    (chain_seq db) (Z.max (token_seq db) key) (group_seq db) (payee_seq db)
    (payment_seq db).
Definition put_group (key : Z) (row : PaymentGroup.t) (db : DB) : DB :=
  mkDB (chains db) (wallets db) (tokens db) (<[key := row]> (groups db))
    (payees db) (payments db)
    (chain_seq db) (token_seq db) (Z.max (group_seq db) key) (payee_seq db)
    (payment_seq db).
Definition put_payee (key : Z) (row : Payee.t) (db : DB) : DB :=
  mkDB (chains db) (wallets db) (tokens db) (groups db)
    (<[key := row]> (payees db)) (payments db)
    (chain_seq db) (token_seq db) (group_seq db) (Z.max (payee_seq db) key)
    (payment_seq db).
Definition put_payment (key : Z) (row : Payment.t) (db : DB) : DB :=
  mkDB (chains db) (wallets db) (tokens db) (groups db) (payees db)
    (<[key := row]> (payments db))
    (chain_seq db) (token_seq db) (group_seq db) (payee_seq db)
    (Z.max (payment_seq db) key).

(** ** Model.save(): the constraints the database checks on a write

    A save with [self = None] inserts under a new key; with [self = Some k]
    it updates row [k], or inserts it when the table has no such row.  A
    value that does not fit its integer column is refused before the
    statement runs; the database then checks the unique indexes and the
    foreign keys.  A unique index compares the row with every other row:
    with all of them on an insert, with all but itself on an update. *)

(** A foreign key is satisfied by any row of the target table, soft-deleted
    or not: the marker is one more column of that row. *)
Definition fk_ok `{Countable K} {A} (table : gmap K A) (k : K) : bool :=
  bool_decide (is_Some (table !! k)).

Definition fk_null_ok `{Countable K} {A} (table : gmap K A) (k : option K) : bool :=
  match k with None => true | Some k => fk_ok table k end.

Definition fits (n : N) : bool := (n <=? integer_max)%N.

(** chain_id = models.PositiveIntegerField(unique=True) *)
Definition chain_id_taken (table : gmap Z Chain.t) (self : option Z)
    (c : Chain.t) : Prop :=
  map_Exists (λ j other,
    Some j ≠ self ∧ Chain.chain_id other = Chain.chain_id c) table.

Definition save_chain (self : option Z) (c : Chain.t) (db : DB) : result Z * DB :=
  let key := target (chains db) (chain_seq db) self in
  if negb (fits (Chain.chain_id c))
  then (Err (OutOfRange "chain_id"), db)
  else if bool_decide (chain_id_taken (chains db) self c)
  then (Err (UniquenessViolation "chain_id"), db)
  else (Ok key, put_chain key c db).

(** A wallet is stored under its address; nothing of the schema is checked
    on it. *)
Definition save_wallet (key : string) (w : Wallet.t) (db : DB) : result string * DB :=
  (Ok key, set_wallets (<[key := w]> (wallets db)) db).

(** UniqueConstraint(fields=('address', 'chain_id'),
    condition=Q(deleted_at=None), name='unique_erc20token_address_chain_id'):
    the index holds the live rows only, so a row clashes when it is live and
    another live row has its address and chain. *)
Definition token_clash (table : gmap Z ERC20Token.t) (self : option Z)
    (t : ERC20Token.t) : Prop :=
  ERC20Token.deleted_at t = None ∧
  map_Exists (λ j other,
    Some j ≠ self ∧ ERC20Token.deleted_at other = None ∧
    ERC20Token.address other = ERC20Token.address t ∧
    ERC20Token.chain other = ERC20Token.chain t) table.

Definition save_token (self : option Z) (t : ERC20Token.t) (now : Z) (db : DB)
  : result Z * DB :=
  let key := target (tokens db) (token_seq db) self in
  let row := ERC20Token.pre_save (bool_decide (tokens db !! key = None)) now t in
  if bool_decide (token_clash (tokens db) self row)
  then (Err (UniquenessViolation "unique_erc20token_address_chain_id"), db)
  else if negb (fk_ok (chains db) (ERC20Token.chain row))
  then (Err (ReferentialIntegrityError "chain"), db)
  else (Ok key, put_token key row db).

Definition save_group (self : option Z) (g : PaymentGroup.t) (now : Z) (db : DB)
  : result Z * DB :=
  let key := target (groups db) (group_seq db) self in
  let row := PaymentGroup.pre_save (bool_decide (groups db !! key = None)) now g in
  if negb (fk_ok (wallets db) (PaymentGroup.wallet row))
  then (Err (ReferentialIntegrityError "wallet"), db)
  else if negb (fk_null_ok (chains db) (PaymentGroup.chain row))
  then (Err (ReferentialIntegrityError "chain"), db)
  else if negb (fk_null_ok (tokens db) (PaymentGroup.token row))
  then (Err (ReferentialIntegrityError "token"), db)
  else (Ok key, put_group key row db).

(** UniqueConstraint(fields=['wallet', 'payment_group'],
    condition=Q(deleted_at=None), name='payee_wallet_payment_group') *)
Definition payee_clash (table : gmap Z Payee.t) (self : option Z)
    (p : Payee.t) : Prop :=
  Payee.deleted_at p = None ∧
  map_Exists (λ j other,
    Some j ≠ self ∧ Payee.deleted_at other = None ∧
    Payee.wallet other = Payee.wallet p ∧
    Payee.payment_group other = Payee.payment_group p) table.

Definition save_payee (self : option Z) (p : Payee.t) (db : DB) : result Z * DB :=
  let key := target (payees db) (payee_seq db) self in
  if negb (fits (Payee.amount p))
  then (Err (OutOfRange "amount"), db)
  else if bool_decide (payee_clash (payees db) self p)
  then (Err (UniquenessViolation "payee_wallet_payment_group"), db)
  else if negb (fk_ok (groups db) (Payee.payment_group p))
  then (Err (ReferentialIntegrityError "payment_group"), db)
  else (Ok key, put_payee key p db).

Definition save_payment (self : option Z) (y : Payment.t) (now : Z) (db : DB)
  : result Z * DB :=
  let key := target (payments db) (payment_seq db) self in
  let row := Payment.pre_save (bool_decide (payments db !! key = None)) now y in
  if negb (fk_ok (payees db) (Payment.payee row))
  then (Err (ReferentialIntegrityError "payee"), db)
  else (Ok key, put_payment key row db).

(** ** Soft deletion *)

Section SoftDelete.
(** What the package does, when a payee is soft-deleted, to the payments
    that refer to it: neither the sources nor the spec fix it. *)
Variable on_payments : Z → Z → gmap Z Payment.t → gmap Z Payment.t.

End SoftDelete.

(** ** Model.delete(): on_delete=models.CASCADE

    Every foreign key of the schema is declared with on_delete=CASCADE.
    Django's deletion collector starts from the rows to delete, follows the
    foreign keys that point at them through the base manager of each model
    (which sees soft-deleted rows as well), and then removes every collected
    row with a DELETE statement; the [delete()] method of a collected row is
    not called.  [Chain.delete()] is this operation, and it is what
    [hard_delete()] reaches on the soft-deletable models. *)
Record collected : Type := mkCollected {
  del_chains : gset Z;
  del_wallets : gset string;
  del_tokens : gset Z;
  del_groups : gset Z;
  del_payees : gset Z;
  del_payments : gset Z
}.

Definition refers (k : option Z) (s : gset Z) : bool :=
  match k with Some k => bool_decide (k ∈ s) | None => false end.

Definition collect (seed : collected) (db : DB) : collected :=
  let ts := del_tokens seed ∪
    dom (filter (λ kt, ERC20Token.chain kt.2 ∈ del_chains seed) (tokens db)) in
  let gs := del_groups seed ∪
    dom (filter (λ kg,
      PaymentGroup.wallet kg.2 ∈ del_wallets seed ∨
      refers (PaymentGroup.chain kg.2) (del_chains seed) = true ∨
      refers (PaymentGroup.token kg.2) ts = true) (groups db)) in
  let ps := del_payees seed ∪
    dom (filter (λ kp, Payee.payment_group kp.2 ∈ gs) (payees db)) in
  let ys := del_payments seed ∪
    dom (filter (λ ky, Payment.payee ky.2 ∈ ps) (payments db)) in
  mkCollected (del_chains seed) (del_wallets seed) ts gs ps ys.

Definition purge (c : collected) (db : DB) : DB :=
  mkDB (filter (λ kv, kv.1 ∉ del_chains c) (chains db))
       (filter (λ kv, kv.1 ∉ del_wallets c) (wallets db))
       (filter (λ kv, kv.1 ∉ del_tokens c) (tokens db))
       (filter (λ kv, kv.1 ∉ del_groups c) (groups db))
       (filter (λ kv, kv.1 ∉ del_payees c) (payees db))
       (filter (λ kv, kv.1 ∉ del_payments c) (payments db))
       (chain_seq db) (token_seq db) (group_seq db) (payee_seq db)
       (payment_seq db).

Definition delete (seed : collected) (db : DB) : DB := purge (collect seed db) db.

Definition delete_chain (key : Z) (db : DB) : DB :=
  delete (mkCollected {[key]} ∅ ∅ ∅ ∅ ∅) db.

(** ** Every write the models offer *)

Inductive write : Type :=
  | SaveChain (self : option Z) (c : Chain.t)
  | SaveWallet (key : string) (w : Wallet.t)
  | SaveToken (self : option Z) (t : ERC20Token.t)
  | SaveGroup (self : option Z) (g : PaymentGroup.t)
  | SavePayee (self : option Z) (p : Payee.t)
  | SavePayment (self : option Z) (y : Payment.t)
  | Delete (seed : collected).

Definition exec (w : write) (now : Z) (db : DB) : DB :=
  match w with
  | SaveChain self c => (save_chain self c db).2
  | SaveWallet key w => (save_wallet key w db).2
  | SaveToken self t => (save_token self t now db).2
  | SaveGroup self g => (save_group self g now db).2
  | SavePayee self p => (save_payee self p db).2
  | SavePayment self y => (save_payment self y now db).2
  | Delete seed => delete seed db
  end.

(** The databases the application can be in. *)
Inductive reachable : DB → Prop :=
  | reachable_empty : reachable empty_db
  | reachable_exec db w now : reachable db → reachable (exec w now db).

(** The databases that follow a given one. *)
Inductive follows (db : DB) : DB → Prop :=
  | follows_here : follows db db
  | follows_exec db' w now : follows db db' → follows db (exec w now db').

(** ** Model.full_clean() and creation

    [full_clean()] runs [clean_fields()], [clean()], [validate_unique()] and
    [validate_constraints()], gathers what they report and raises one
    ValidationError when anything was reported; an exception of another
    kind leaves it at once. *)

(** A CharField that may not be blank: not empty, and no longer than
    max_length. *)
Definition char_field_ok (max_length : nat) (value : string) : bool :=
  negb (String.eqb value "") && (String.length value <=? max_length)%nat.

(** A CharField with blank=True and null=True: an empty value is not
    looked at. *)
Definition blank_char_field_ok (max_length : nat) (value : option string) : bool :=
  match value with
  | None => true
  | Some s => String.eqb s "" || (String.length s <=? max_length)%nat
  end.

(** The entry of one field in the error dict. *)
Definition reports (field : string) (ok : bool) : gset string :=
  if ok then ∅ else {[field]}.

Definition is_hex_digit (c : ascii) : bool :=
  let n := nat_of_ascii c in
  ((48 <=? n) && (n <=? 57) || (65 <=? n) && (n <=? 70)
   || (97 <=? n) && (n <=? 102))%nat.

Fixpoint all_hex (s : string) : bool :=
  match s with
  | EmptyString => true
  | String c rest => is_hex_digit c && all_hex rest
  end.

(** The hexadecimal digits. *)
Definition hex_digits : list ascii :=
  list_ascii_of_string "0123456789abcdefABCDEF".

(** The prefix 0x followed by forty hexadecimal digits. *)
Definition hex_address_shape (value : string) : bool :=
  (String.length value =? 42)%nat && String.prefix "0x" value
  && all_hex (String.substring 2 40 value).

Section Validation.
(** The checksum half of the address format, which the spec names and does
    not define. *)
Variable checksum_ok : string → bool.

(** Modelled from the spec: [validate_ethereum_address] is imported from the
    siwe_auth package, which is not among the sources.  The spec: the value
    must be a syntactically valid Ethereum address, a fixed-length hex
    string with a recognized checksum/prefix format; a malformed Ethereum
    address is a ValidationError. *)
Definition validate_ethereum_address (value : string) : result unit :=
  if hex_address_shape value && checksum_ok value
  then Ok tt
  else Err (ValidationError "malformed Ethereum address").

(** Payee.clean_fields(): name and wallet are CharFields of at most 255
    characters that may not be blank, wallet has the address validator,
    payment_group must name a row, amount must fit its column. *)
Definition clean_fields_payee (p : Payee.t) (db : DB) : gset string :=
  reports "name" (char_field_ok 255 (Payee.name p)) ∪
  reports "wallet"
    (char_field_ok 255 (Payee.wallet p) &&
     is_ok (validate_ethereum_address (Payee.wallet p))) ∪
  reports "payment_group" (fk_ok (groups db) (Payee.payment_group p)) ∪
  reports "amount" (fits (Payee.amount p)).

(** Payee.validate_constraints() for a new instance: the constraint is
    checked when its fields passed, against the live rows. *)
Definition validate_constraints_payee (failed : gset string) (p : Payee.t)
    (db : DB) : gset string :=
  reports "__all__"
    (negb (bool_decide (("wallet" ∉ failed) ∧ ("payment_group" ∉ failed) ∧
                        payee_clash (payees db) None p))).

(** Payee.full_clean(); Payee has no [clean]. *)
Definition full_clean_payee_errors (p : Payee.t) (db : DB) : gset string :=
  clean_fields_payee p db ∪
  validate_constraints_payee (clean_fields_payee p db) p db.

Definition full_clean_payee (p : Payee.t) (db : DB) : result unit :=
  if decide (full_clean_payee_errors p db = ∅) then Ok tt
  else Err (ValidationErrors (full_clean_payee_errors p db)).

(** Creation validates the new instance and then saves it. *)
Definition create_payee (p : Payee.t) (db : DB) : result Z * DB :=
  match full_clean_payee p db with
  | Err e => (Err e, db)
  | Ok _ => save_payee None p db
  end.
End Validation.

(** PaymentGroup.clean_fields(): name may not be blank, detail may; wallet
    must name a row; chain and token, when set, must name a row. *)
Definition clean_fields_group (g : PaymentGroup.t) (db : DB) : gset string :=
  reports "name" (char_field_ok 255 (PaymentGroup.name g)) ∪
  reports "detail" (blank_char_field_ok 255 (PaymentGroup.detail g)) ∪
  reports "wallet"
    (negb (String.eqb (PaymentGroup.wallet g) "") &&
     fk_ok (wallets db) (PaymentGroup.wallet g)) ∪
  reports "chain" (fk_null_ok (chains db) (PaymentGroup.chain g)) ∪
  reports "token" (fk_null_ok (tokens db) (PaymentGroup.token g)).

(** PaymentGroup.full_clean(): the fields, then [clean], whose
    ValidationError goes under __all__ and whose DoesNotExist is not
    caught. *)
Definition full_clean_group (g : PaymentGroup.t) (db : DB) : result unit :=
  match PaymentGroup.clean (chains db) (tokens db) g with
  | Err (ValidationError _) =>
      Err (ValidationErrors (clean_fields_group g db ∪ {["__all__"]}))
  | Err e => Err e
  | Ok _ =>
      if decide (clean_fields_group g db = ∅) then Ok tt
      else Err (ValidationErrors (clean_fields_group g db))
  end.

Definition create_group (g : PaymentGroup.t) (now : Z) (db : DB) : result Z * DB :=
  match full_clean_group g db with
  | Err e => (Err e, db)
  | Ok _ => save_group None g now db
  end.


Definition create_payment (y : Payment.t) (now : Z) (db : DB) : result Z * DB :=
  save_payment None y now db.

(** ** Invariants of the database *)

Definition live_tokens_unique (db : DB) : Prop :=
  ∀ i j t u,
    tokens db !! i = Some t → tokens db !! j = Some u →
    ERC20Token.deleted_at t = None → ERC20Token.deleted_at u = None →
    ERC20Token.address t = ERC20Token.address u →
    ERC20Token.chain t = ERC20Token.chain u →
    i = j.


(** Every group that names a token sits on the chain of that token. *)
Definition token_on_group_chain (db : DB) : Prop :=
  ∀ i g k t,
    groups db !! i = Some g → PaymentGroup.token g = Some k →
    tokens db !! k = Some t →
    PaymentGroup.chain g = Some (ERC20Token.chain t).


(** Referential integrity: every foreign key names a row of its table. *)
Definition fk_consistent (db : DB) : Prop :=
  (∀ i t, tokens db !! i = Some t →
     is_Some (chains db !! ERC20Token.chain t)) ∧
  (∀ i g, groups db !! i = Some g →
     is_Some (wallets db !! PaymentGroup.wallet g) ∧
     (∀ c, PaymentGroup.chain g = Some c → is_Some (chains db !! c)) ∧
     (∀ k, PaymentGroup.token g = Some k → is_Some (tokens db !! k))) ∧
  (∀ i p, payees db !! i = Some p →
     is_Some (groups db !! Payee.payment_group p)) ∧
  (∀ i y, payments db !! i = Some y →
     is_Some (payees db !! Payment.payee y)).

(** No two rows of a table stand in the relation [R]. *)
Definition distinct_rows {A} (R : A → A → Prop) (table : gmap Z A) : Prop :=
  ∀ i j x y, table !! i = Some x → table !! j = Some y → R x y → i = j.

(** Two live rows that the partial index of their table takes for the same. *)
Definition same_live_token (t u : ERC20Token.t) : Prop :=
  ERC20Token.deleted_at t = None ∧ ERC20Token.deleted_at u = None ∧
  ERC20Token.address t = ERC20Token.address u ∧
  ERC20Token.chain t = ERC20Token.chain u.


(** ** A small database to run the operations on

    One wallet, chains 1 (Ethereum) and 2 (Polygon), and a USDC token on
    each. *)
Definition alice : string := "0x52908400098527886E0F7030069857D2E4169EE7".

Definition a_wallet : Wallet.t := Wallet.mk None None None None 0 false true 0 0.
Definition ethereum : Chain.t := Chain.mk "Ethereum" 1 "ETH".
Definition polygon : Chain.t := Chain.mk "Polygon" 137 "MATIC".
Definition usdc (chain : Z) : ERC20Token.t :=
  ERC20Token.mk None None 0 0 "USD Coin" "USDC" "0xA0b8" chain.

Definition base_db : DB :=
  exec (SaveToken None (usdc 2)) 5
    (exec (SaveToken None (usdc 1)) 4
      (exec (SaveChain None polygon) 3
        (exec (SaveChain None ethereum) 2
          (exec (SaveWallet alice a_wallet) 1 empty_db)))).

Definition a_group (chain token : option Z) : PaymentGroup.t :=
  PaymentGroup.mk None None 0 0 alice "Rent" None chain token.

Definition a_payee (deleted_at : option Z) (group : Z) : Payee.t :=
  Payee.mk deleted_at None "Bob" alice group 10.

Definition a_payment (payee : Z) : Payment.t := Payment.mk None None 0 0 payee.

(** A group on chain 1 that names the token of chain 2, written by [save]. *)
Definition mismatched_db : DB :=
  exec (SaveGroup None (a_group (Some 1) (Some 2))) 9 base_db.


(** A group on chain 1 with its token and one payee. *)
Definition payee_db : DB :=
  exec (SavePayee None (a_payee None 1)) 7
    (exec (SaveGroup None (a_group (Some 1) (Some 1))) 6 base_db).

(** The same after the deletion marker of the payee was set at time 8. *)
Definition deleted_payee_db : DB :=
  exec (SavePayee (Some 1) (Payee.set_deleted_at (Some 8) (a_payee None 1))) 8
    payee_db.




(** [base_db] after chain 2 was deleted, and its token with it. *)
Definition pruned_db : DB :=
  exec (Delete (mkCollected {[2]} ∅ ∅ ∅ ∅ ∅)) 8 base_db.

Definition dai : ERC20Token.t :=
  ERC20Token.mk None None 0 0 "Dai" "DAI" "0x6B17" 1.

(** A payee saved without validation. *)
Definition unvalidated_payee_db : DB :=
  exec (SavePayee None (Payee.mk None None "Bob" "not-an-address" 1 10)) 9
    payee_db.


(** The token table remembers every key it holds. *)
Definition token_keys_remembered (db : DB) : Prop :=
  ∀ k, is_Some (tokens db !! k) → k ≤ token_seq db.

(** * Properties *)

(** ** Keys and tables *)

Lemma next_pk_above {A} (table : gmap Z A) seq k :
  is_Some (table !! k) → k < next_pk table seq.
Proof.
  unfold next_pk. revert k.
  apply (map_fold_weak_ind
           (λ top (m : gmap Z A),
              ∀ k, is_Some (m !! k) → k < 1 + Z.max seq top)).
  - intros k [x Hx]. by rewrite lookup_empty in Hx.
  - intros i x m top Hi IH k Hk.
    destruct (decide (k = i)) as [->|Hne]; [lia|].
    rewrite lookup_insert_ne in Hk by done. specialize (IH k Hk). lia.
Qed.

Lemma next_pk_fresh {A} (table : gmap Z A) seq :
  table !! next_pk table seq = None.
Proof.
  destruct (table !! next_pk table seq) eqn:E; [|done].
  pose proof (next_pk_above table seq (next_pk table seq)) as H.
  rewrite E in H. specialize (H (mk_is_Some _ _ eq_refl)). lia.
Qed.

Lemma next_pk_past_seq {A} (table : gmap Z A) seq : seq < next_pk table seq.
Proof. unfold next_pk. lia. Qed.


Lemma fk_ok_true `{Countable K} {A} (table : gmap K A) k :
  fk_ok table k = true ↔ is_Some (table !! k).
Proof. unfold fk_ok. apply bool_decide_eq_true. Qed.

Lemma fk_ok_false `{Countable K} {A} (table : gmap K A) k :
  fk_ok table k = false ↔ table !! k = None.
Proof.
  unfold fk_ok. rewrite bool_decide_eq_false. symmetry. apply eq_None_not_Some.
Qed.

Lemma fk_null_ok_true `{Countable K} {A} (table : gmap K A) k :
  fk_null_ok table k = true ↔ ∀ k', k = Some k' → is_Some (table !! k').
Proof.
  destruct k as [k|]; simpl.
  - rewrite fk_ok_true. split; [by intros ? ? [= <-]|auto].
  - split; [by intros _ ? [=]|done].
Qed.

Section Pairwise.
Context {A : Type} (R : A → A → Prop).

Lemma distinct_rows_insert (m : gmap Z A) key row :
  distinct_rows R m →
  (∀ j y, m !! j = Some y → j ≠ key → ¬ R row y ∧ ¬ R y row) →
  distinct_rows R (<[key := row]> m).
Proof.
  intros Hm Hrow i j x y Hi Hj Hxy.
  destruct (decide (i = key)) as [->|Hik], (decide (j = key)) as [->|Hjk];
    simplify_map_eq; try done.
  - destruct (Hrow j y Hj Hjk) as [H _]. by destruct H.
  - destruct (Hrow i x Hi Hik) as [_ H]. by destruct H.
  - eauto.
Qed.

Lemma distinct_rows_filter (P : Z * A → Prop) `{∀ x, Decision (P x)}
    (m : gmap Z A) :
  distinct_rows R m → distinct_rows R (filter P m).
Proof.
  intros Hm i j x y [Hi _]%map_lookup_filter_Some
    [Hj _]%map_lookup_filter_Some.
  eauto.
Qed.
End Pairwise.

(** ** The partial unique indexes *)

Lemma live_tokens_unique_rows db :
  live_tokens_unique db ↔ distinct_rows same_live_token (tokens db).
Proof.
  unfold live_tokens_unique, distinct_rows, same_live_token.
  split; intros H i j t u Hi Hj; [intros (?&?&?&?)|intros]; eapply H; eauto.
Qed.


Lemma token_clash_intro table self t j u :
  ERC20Token.deleted_at t = None →
  table !! j = Some u → Some j ≠ self → ERC20Token.deleted_at u = None →
  ERC20Token.address u = ERC20Token.address t →
  ERC20Token.chain u = ERC20Token.chain t →
  token_clash table self t.
Proof. intros. split; [done|]. exists j, u. auto. Qed.


(** Whatever [self] is, a row other than the one written is another row for
    the index. *)
Lemma other_row {A} (table : gmap Z A) seq self j :
  is_Some (table !! j) → j ≠ target table seq self → Some j ≠ self.
Proof.
  intros Hj Hne. destruct self as [k|]; [|done].
  intros [= ->]. by apply Hne.
Qed.

Lemma save_token_unique self t now db :
  live_tokens_unique db → live_tokens_unique (save_token self t now db).2.
Proof.
  intros Hu. unfold save_token.
  case_bool_decide as Hclash; [done|].
  destruct (negb _); [done|]. simpl.
  apply live_tokens_unique_rows, distinct_rows_insert;
    [by apply live_tokens_unique_rows|].
  intros j u Hj Hne. split; intros (?&?&?&?); apply Hclash;
    eapply token_clash_intro; eauto using other_row.
Qed.


(** ** Referential integrity is kept by every write *)

Lemma is_Some_insert `{Countable K} {A} (m : gmap K A) i j x :
  is_Some (m !! j) → is_Some (<[i := x]> m !! j).
Proof. intros. apply lookup_insert_is_Some'. auto. Qed.

Lemma elem_of_dom_filter `{Countable K} {A} (P : K * A → Prop)
    `{∀ x, Decision (P x)} (m : gmap K A) i :
  i ∈ dom (filter P m) ↔ ∃ x, m !! i = Some x ∧ P (i, x).
Proof.
  rewrite elem_of_dom. unfold is_Some.
  by setoid_rewrite map_lookup_filter_Some.
Qed.

Lemma lookup_kept `{Countable K} {A} (s : gset K) (m : gmap K A) i x :
  filter (λ kv, kv.1 ∉ s) m !! i = Some x ↔ m !! i = Some x ∧ i ∉ s.
Proof. by rewrite map_lookup_filter_Some. Qed.

Lemma is_Some_kept `{Countable K} {A} (s : gset K) (m : gmap K A) i :
  is_Some (m !! i) → i ∉ s → is_Some (filter (λ kv, kv.1 ∉ s) m !! i).
Proof. intros [x Hx] Hi. exists x. by apply lookup_kept. Qed.

Lemma refers_true k s : refers k s = true ↔ ∃ k', k = Some k' ∧ k' ∈ s.
Proof.
  destruct k as [k|]; simpl.
  - rewrite bool_decide_eq_true. split; [eauto|by intros (? & [= <-] & ?)].
  - split; [done|by intros (? & ? & _)].
Qed.

Lemma save_chain_fk self c db : fk_consistent db → fk_consistent (save_chain self c db).2.
Proof.
  intros (Ht & Hg & Hp & Hy). unfold save_chain.
  destruct (negb (fits _)); [done|].
  case_bool_decide; [done|]. simpl.
  split_and!; simpl; [|  |done|done].
  - intros i t Hi. eauto using is_Some_insert.
  - intros i g Hi. destruct (Hg i g Hi) as (?&?&?). eauto using is_Some_insert.
Qed.

Lemma save_wallet_fk key w db : fk_consistent db → fk_consistent (save_wallet key w db).2.
Proof.
  intros (Ht & Hg & Hp & Hy). unfold save_wallet. simpl.
  split_and!; simpl; [done| |done|done].
  intros i g Hi. destruct (Hg i g Hi) as (?&?&?). eauto using is_Some_insert.
Qed.

Lemma save_token_fk self t now db : fk_consistent db → fk_consistent (save_token self t now db).2.
Proof.
  intros (Ht & Hg & Hp & Hy). unfold save_token.
  case_bool_decide; [done|].
  destruct (fk_ok _ _) eqn:Hfk; [|done]. simpl.
  apply fk_ok_true in Hfk.
  split_and!; simpl; [| |done|done].
  - intros i u Hi. apply lookup_insert_Some in Hi as [[_ <-]|[_ Hi]]; eauto.
  - intros i g Hi. destruct (Hg i g Hi) as (?&?&?). eauto using is_Some_insert.
Qed.

Lemma save_group_fk self g now db : fk_consistent db → fk_consistent (save_group self g now db).2.
Proof.
  intros (Ht & Hg & Hp & Hy). unfold save_group.
  destruct (fk_ok _ _) eqn:Hw; [|done].
  destruct (fk_null_ok (chains db) _) eqn:Hc; [|done].
  destruct (fk_null_ok (tokens db) _) eqn:Hk; [|done]. simpl.
  apply fk_ok_true in Hw. rewrite fk_null_ok_true in Hc. rewrite fk_null_ok_true in Hk.
  split_and!; simpl; [done| | |done].
  - intros i u Hi. apply lookup_insert_Some in Hi as [[_ <-]|[_ Hi]]; eauto.
  - intros i p Hi. eauto using is_Some_insert.
Qed.

Lemma save_payee_fk self p db : fk_consistent db → fk_consistent (save_payee self p db).2.
Proof.
  intros (Ht & Hg & Hp & Hy). unfold save_payee.
  destruct (negb (fits _)); [done|].
  case_bool_decide; [done|].
  destruct (fk_ok _ _) eqn:Hfk; [|done]. simpl.
  apply fk_ok_true in Hfk.
  split_and!; simpl; [done|done| |].
  - intros i u Hi. apply lookup_insert_Some in Hi as [[_ <-]|[_ Hi]]; eauto.
  - intros i y Hi. eauto using is_Some_insert.
Qed.

Lemma save_payment_fk self y now db : fk_consistent db → fk_consistent (save_payment self y now db).2.
Proof.
  intros (Ht & Hg & Hp & Hy). unfold save_payment.
  destruct (fk_ok _ _) eqn:Hfk; [|done]. simpl.
  apply fk_ok_true in Hfk.
  split_and!; simpl; [done|done|done|].
  intros i u Hi. apply lookup_insert_Some in Hi as [[_ <-]|[_ Hi]]; eauto.
Qed.

Lemma delete_fk seed db : fk_consistent db → fk_consistent (delete seed db).
Proof.
  intros (Ht & Hg & Hp & Hy). unfold delete, purge, collect.
  split_and!; simpl.
  - intros i t [Hi Hkeep]%lookup_kept.
    apply is_Some_kept; [eauto|]. intros Hc. apply Hkeep.
    apply elem_of_union_r, elem_of_dom_filter. eauto.
  - intros i g [Hi Hkeep]%lookup_kept.
    destruct (Hg i g Hi) as (Hw & Hc & Hk).
    split_and!.
    + apply is_Some_kept; [done|]. intros Hin. apply Hkeep, elem_of_union_r.
      apply elem_of_dom_filter. eauto.
    + intros c Hgc. apply is_Some_kept; [eauto|]. intros Hin.
      apply Hkeep, elem_of_union_r, elem_of_dom_filter. exists g. split; [done|].
      right; left. apply refers_true. eauto.
    + intros k Hgk. apply is_Some_kept; [eauto|]. intros Hin.
      apply Hkeep, elem_of_union_r, elem_of_dom_filter. exists g. split; [done|].
      right; right. apply refers_true. eauto.
  - intros i p [Hi Hkeep]%lookup_kept.
    apply is_Some_kept; [eauto|]. intros Hc. apply Hkeep.
    apply elem_of_union_r, elem_of_dom_filter. eauto.
  - intros i y [Hi Hkeep]%lookup_kept.
    apply is_Some_kept; [eauto|]. intros Hc. apply Hkeep.
    apply elem_of_union_r, elem_of_dom_filter. eauto.
Qed.

(** ** What holds of every reachable database *)

Lemma exec_fk w now db : fk_consistent db → fk_consistent (exec w now db).
Proof.
  destruct w; cbn [exec];
    [apply save_chain_fk | apply save_wallet_fk | apply save_token_fk
    | apply save_group_fk | apply save_payee_fk | apply save_payment_fk
    | apply delete_fk].
Qed.

Lemma empty_fk : fk_consistent empty_db.
Proof. split_and!; intros i x Hi; simpl in Hi; by rewrite lookup_empty in Hi. Qed.

Lemma reachable_fk db : reachable db → fk_consistent db.
Proof. induction 1; auto using empty_fk, exec_fk. Qed.

(** A write to one table leaves the others as they were. *)
Ltac same_table :=
  intros;
  unfold save_chain, save_wallet, save_token, save_group, save_payee,
    save_payment;
  repeat case_match; reflexivity.

Lemma save_chain_tokens self c db : tokens (save_chain self c db).2 = tokens db.
Proof. same_table. Qed.
Lemma save_wallet_tokens key w db : tokens (save_wallet key w db).2 = tokens db.
Proof. same_table. Qed.
Lemma save_group_tokens self g now db :
  tokens (save_group self g now db).2 = tokens db.
Proof. same_table. Qed.
Lemma save_payee_tokens self p db : tokens (save_payee self p db).2 = tokens db.
Proof. same_table. Qed.
Lemma save_payment_tokens self y now db :
  tokens (save_payment self y now db).2 = tokens db.
Proof. same_table. Qed.


Lemma live_tokens_unique_same db db' :
  tokens db' = tokens db → live_tokens_unique db → live_tokens_unique db'.
Proof. unfold live_tokens_unique. by intros ->. Qed.


Lemma exec_tokens_unique w now db :
  live_tokens_unique db → live_tokens_unique (exec w now db).
Proof.
  intros Hu. destruct w; cbn [exec].
  - by eapply live_tokens_unique_same; [apply save_chain_tokens|].
  - by eapply live_tokens_unique_same; [apply save_wallet_tokens|].
  - by apply save_token_unique.
  - by eapply live_tokens_unique_same; [apply save_group_tokens|].
  - by eapply live_tokens_unique_same; [apply save_payee_tokens|].
  - by eapply live_tokens_unique_same; [apply save_payment_tokens|].
  - apply live_tokens_unique_rows. unfold delete, purge; simpl.
    by apply distinct_rows_filter, live_tokens_unique_rows.
Qed.


Lemma reachable_tokens_unique db : reachable db → live_tokens_unique db.
Proof.
  induction 1; [|by apply exec_tokens_unique].
  intros i j t u Hi; simpl in Hi; by rewrite lookup_empty in Hi.
Qed.




(** ** Integers fit their columns, and keys are remembered *)



(** No write lowers the largest key the token table remembers, and none
    stores a token under a key the table does not remember. *)
Lemma exec_token_seq w now db :
  token_seq db ≤ token_seq (exec w now db) ∧
  (token_keys_remembered db → token_keys_remembered (exec w now db)).
Proof.
  destruct w; cbn [exec];
    unfold save_chain, save_wallet, save_token, save_group, save_payee,
      save_payment, delete, purge, token_keys_remembered;
    repeat case_match; simpl; try (split; [lia|done]).
  - split; [lia|]. intros Hk k [Heq|[_ Hin]]%lookup_insert_is_Some; [lia|].
    specialize (Hk k Hin). lia.
  - split; [lia|]. intros Hk k [x [Hin _]%lookup_kept]. eauto.
Qed.

Lemma reachable_token_keys db : reachable db → token_keys_remembered db.
Proof.
  induction 1; [|by apply exec_token_seq].
  intros k [x Hx]. simpl in Hx. by rewrite lookup_empty in Hx.
Qed.

Lemma follows_token_seq db db' : follows db db' → token_seq db ≤ token_seq db'.
Proof.
  induction 1; [lia|].
  pose proof (exec_token_seq w now db') as [? _]. lia.
Qed.

Lemma follows_reachable db db' : reachable db → follows db db' → reachable db'.
Proof. induction 2; [done|by constructor]. Qed.

(** ** PaymentGroup: the derived properties and clean() *)

(** C8 (amended): for every PaymentGroup whose token is unset or names a row
    of the token table, and so for every group stored in a reachable
    database, exactly one of use_erc20 and use_native_currency is true:
    use_erc20 exactly when the token is set, use_native_currency exactly
    when it is unset. *)
Theorem use_erc20_xor_use_native_currency (g : PaymentGroup.t) :
  (∀ tokens : gmap Z ERC20Token.t,
     (∀ k, PaymentGroup.token g = Some k → is_Some (tokens !! k)) →
     ∃ b,
       PaymentGroup.use_erc20 tokens g = Ok b ∧
       PaymentGroup.use_native_currency tokens g = Ok (negb b) ∧
       (b = true ↔ PaymentGroup.token g ≠ None) ∧
       (negb b = true ↔ PaymentGroup.token g = None)) ∧
  (∀ db i,
     reachable db → groups db !! i = Some g →
     ∃ b,
       PaymentGroup.use_erc20 (tokens db) g = Ok b ∧
       PaymentGroup.use_native_currency (tokens db) g = Ok (negb b) ∧
       (b = true ↔ PaymentGroup.token g ≠ None) ∧
       (negb b = true ↔ PaymentGroup.token g = None)).
Proof.
  assert (∀ tokens : gmap Z ERC20Token.t,
     (∀ k, PaymentGroup.token g = Some k → is_Some (tokens !! k)) →
     ∃ b,
       PaymentGroup.use_erc20 tokens g = Ok b ∧
       PaymentGroup.use_native_currency tokens g = Ok (negb b) ∧
       (b = true ↔ PaymentGroup.token g ≠ None) ∧
       (negb b = true ↔ PaymentGroup.token g = None)) as Hone.
  { intros tokens Hres.
    unfold PaymentGroup.use_erc20, PaymentGroup.use_native_currency, related.
    destruct (PaymentGroup.token g) as [k|].
    - destruct (Hres k eq_refl) as [t ->]. exists true. simpl.
      split_and!; try done; split; done.
    - exists false. simpl. split_and!; try done; split; done. }
  split; [exact Hone|].
  intros db i Hreach Hi. apply Hone. intros k Hk.
  destruct (reachable_fk db Hreach) as (_ & Hg & _).
  by apply (Hg i g Hi).
Qed.

(** The theorem at the groups of the small database with token 1 and with
    no token. *)
Lemma use_erc20_xor_use_native_currency_witness :
  (∃ b, PaymentGroup.use_erc20 (tokens base_db) (a_group (Some 1) (Some 1))
          = Ok b ∧ b = true) ∧
  (∃ b, PaymentGroup.use_native_currency (tokens base_db) (a_group None None)
          = Ok (negb b) ∧ negb b = true).
Proof.
  split.
  - destruct (proj1 (use_erc20_xor_use_native_currency
                       (a_group (Some 1) (Some 1))) (tokens base_db))
      as (b & H1 & _ & Hb & _).
    + intros k [= <-]. by eexists.
    + exists b. split; [done|]. by apply Hb.
  - destruct (proj1 (use_erc20_xor_use_native_currency (a_group None None))
                (tokens base_db))
      as (b & _ & H2 & _ & Hb).
    + intros k [=].
    + exists b. split; [done|]. by apply Hb.
Defined.

(** C8 as stated fails: for an instance whose token key names no row,
    reading self.token raises DoesNotExist, so neither property is true. *)
Lemma dangling_token_has_neither_property :
  PaymentGroup.use_erc20 (tokens base_db) (a_group (Some 1) (Some 99)) =
    Err (DoesNotExist "ERC20Token") ∧
  PaymentGroup.use_native_currency (tokens base_db)
    (a_group (Some 1) (Some 99)) = Err (DoesNotExist "ERC20Token").
Proof. split; reflexivity. Qed.

Lemma clean_token (db : DB) g k t :
  PaymentGroup.token g = Some k → tokens db !! k = Some t →
  PaymentGroup.clean (chains db) (tokens db) g =
    if negb (fk_null_ok (chains db) (PaymentGroup.chain g))
    then Err (DoesNotExist "Chain")
    else if negb (fk_ok (chains db) (ERC20Token.chain t))
    then Err (DoesNotExist "Chain")
    else if bool_decide (PaymentGroup.chain g ≠ Some (ERC20Token.chain t))
    then Err (ValidationError PaymentGroup.clean_message) else Ok tt.
Proof.
  intros Hk Ht. unfold PaymentGroup.clean, related. rewrite Hk, Ht.
  destruct (PaymentGroup.chain g) as [c|]; simpl.
  - destruct (fk_ok (chains db) c) eqn:Hc;
      [apply fk_ok_true in Hc as [? ->]|apply fk_ok_false in Hc as ->];
      simpl; [|done].
    destruct (fk_ok (chains db) (ERC20Token.chain t)) eqn:Htc;
      [apply fk_ok_true in Htc as [? ->]|apply fk_ok_false in Htc as ->];
      done.
  - destruct (fk_ok (chains db) (ERC20Token.chain t)) eqn:Htc;
      [apply fk_ok_true in Htc as [? ->]|apply fk_ok_false in Htc as ->];
      done.
Qed.

Lemma full_clean_group_ok g db :
  full_clean_group g db = Ok tt ↔
  PaymentGroup.clean (chains db) (tokens db) g = Ok tt ∧
  clean_fields_group g db = ∅.
Proof.
  unfold full_clean_group.
  destruct (PaymentGroup.clean _ _ _) as [[]|e].
  - case_decide; split; try done; by intros [_ ?].
  - destruct e; split; try done; by intros [? _].
Qed.

Lemma save_group_ok self g now db key db' :
  save_group self g now db = (Ok key, db') →
  key = target (groups db) (group_seq db) self ∧
  db' = put_group key
          (PaymentGroup.pre_save (bool_decide (groups db !! key = None)) now g)
          db.
Proof.
  unfold save_group. repeat case_match; try done. by intros [= <- <-].
Qed.

Lemma create_group_ok g now db key db' :
  create_group g now db = (Ok key, db') →
  PaymentGroup.clean (chains db) (tokens db) g = Ok tt ∧
  clean_fields_group g db = ∅ ∧
  tokens db' = tokens db ∧
  groups db' =
    <[key := PaymentGroup.pre_save (bool_decide (groups db !! key = None)) now g]>
      (groups db).
Proof.
  unfold create_group.
  destruct (full_clean_group g db) as [[]|e] eqn:Hfull; [|done].
  apply full_clean_group_ok in Hfull as [Hclean Hfields].
  intros [_ ->]%save_group_ok. done.
Qed.

Lemma clean_ok (db : DB) g k t :
  PaymentGroup.token g = Some k → tokens db !! k = Some t →
  PaymentGroup.clean (chains db) (tokens db) g = Ok tt →
  PaymentGroup.chain g = Some (ERC20Token.chain t) ∧
  is_Some (chains db !! ERC20Token.chain t).
Proof.
  intros Hk Ht. rewrite (clean_token db g k t Hk Ht).
  destruct (fk_null_ok _ _); [|done].
  destruct (fk_ok _ _) eqn:Htc; [|done]. apply fk_ok_true in Htc. simpl.
  destruct (decide (PaymentGroup.chain g = Some (ERC20Token.chain t)));
    [done|].
  by rewrite bool_decide_eq_true_2.
Qed.


Lemma create_group_keeps_token_chain g now db key db' :
  create_group g now db = (Ok key, db') →
  token_on_group_chain db → token_on_group_chain db'.
Proof.
  intros (Hclean & _ & Htok & Hgr)%create_group_ok Hinv i g' k t.
  rewrite Htok, Hgr. intros Hi Hk Ht.
  apply lookup_insert_Some in Hi as [[_ <-]|[_ Hi]]; [|by eapply Hinv].
  simpl in Hk |- *. by apply (clean_ok db g k t).
Qed.

Lemma create_group_clean_error g now db message :
  PaymentGroup.clean (chains db) (tokens db) g = Err (ValidationError message) →
  ∃ fields,
    "__all__" ∈ fields ∧
    create_group g now db = (Err (ValidationErrors fields), db).
Proof.
  intros Hclean. unfold create_group, full_clean_group. rewrite Hclean.
  eexists. split; [|done]. apply elem_of_union_r. by apply elem_of_singleton.
Qed.

Lemma create_group_does_not_exist g now db model :
  PaymentGroup.clean (chains db) (tokens db) g = Err (DoesNotExist model) →
  create_group g now db = (Err (DoesNotExist model), db).
Proof.
  intros Hclean. unfold create_group, full_clean_group. by rewrite Hclean.
Qed.

(** C1 (amended): for a PaymentGroup whose token is set to an existing
    token, clean() succeeds exactly when the chain of the group is the
    chain of the token (and that chain is a row); when they differ and the
    rows exist it raises the ValidationError of the source, and a validated
    creation fails with a ValidationError that has it under __all__ and
    leaves the database as it was; when a chain key names no row, reading
    the chain raises Chain.DoesNotExist, which the creation passes on; a
    group that a validated creation does persist has its token on its
    chain. *)
Theorem group_clean_token_chain
    (db : DB) (g : PaymentGroup.t) (k : Z) (t : ERC20Token.t) (now : Z) :
  PaymentGroup.token g = Some k →
  tokens db !! k = Some t →
  (PaymentGroup.clean (chains db) (tokens db) g = Ok tt ↔
     PaymentGroup.chain g = Some (ERC20Token.chain t) ∧
     is_Some (chains db !! ERC20Token.chain t)) ∧
  (PaymentGroup.chain g ≠ Some (ERC20Token.chain t) →
   (∀ c, PaymentGroup.chain g = Some c → is_Some (chains db !! c)) →
   is_Some (chains db !! ERC20Token.chain t) →
     PaymentGroup.clean (chains db) (tokens db) g =
       Err (ValidationError
              "If a token is specified, it must belong to the same chain.") ∧
     ∃ fields,
       "__all__" ∈ fields ∧
       create_group g now db = (Err (ValidationErrors fields), db)) ∧
  ((∃ c, PaymentGroup.chain g = Some c ∧ chains db !! c = None) ∨
   chains db !! ERC20Token.chain t = None →
     PaymentGroup.clean (chains db) (tokens db) g =
       Err (DoesNotExist "Chain") ∧
     create_group g now db = (Err (DoesNotExist "Chain"), db)) ∧
  (∀ key db', create_group g now db = (Ok key, db') →
     PaymentGroup.chain g = Some (ERC20Token.chain t) ∧
     (token_on_group_chain db → token_on_group_chain db')).
Proof.
  intros Hk Ht. pose proof (clean_token db g k t Hk Ht) as Hclean.
  pose proof (clean_ok db g k t Hk Ht) as Hok.
  split_and!.
  - split; [exact Hok|]. intros [He Htc]. rewrite Hclean, He. simpl.
    apply fk_ok_true in Htc. rewrite Htc. simpl.
    by rewrite bool_decide_eq_false_2 by (by intros []).
  - intros Hne Hgc%fk_null_ok_true Htc%fk_ok_true.
    assert (PaymentGroup.clean (chains db) (tokens db) g =
            Err (ValidationError PaymentGroup.clean_message)) as Herr.
    { rewrite Hclean, Hgc, Htc. simpl. by rewrite bool_decide_eq_true_2. }
    split; [exact Herr|]. by eapply create_group_clean_error.
  - intros Hmiss.
    assert (PaymentGroup.clean (chains db) (tokens db) g =
            Err (DoesNotExist "Chain")) as Herr.
    { rewrite Hclean. destruct Hmiss as [(c & Hc & Hnone)|Hnone].
      - rewrite Hc. simpl. apply fk_ok_false in Hnone. by rewrite Hnone.
      - destruct (fk_null_ok _ _); [simpl|done].
        apply fk_ok_false in Hnone. by rewrite Hnone. }
    split; [exact Herr|]. by apply create_group_does_not_exist.
  - intros key db' Hcreate. split; [|by eapply create_group_keeps_token_chain].
    apply create_group_ok in Hcreate as (Hcl & _). by apply Hok.
Qed.

(** The theorem at the groups (chain 1, token 1), (chain 2, token 1) and
    (chain 99, token 1) of the small database, which has no chain 99. *)
Lemma group_clean_token_chain_witness :
  (PaymentGroup.clean (chains base_db) (tokens base_db)
     (a_group (Some 1) (Some 1)) = Ok tt ↔
   PaymentGroup.chain (a_group (Some 1) (Some 1)) = Some 1 ∧
   is_Some (chains base_db !! 1)) ∧
  PaymentGroup.clean (chains base_db) (tokens base_db)
    (a_group (Some 2) (Some 1)) =
    Err (ValidationError
           "If a token is specified, it must belong to the same chain.") ∧
  create_group (a_group (Some 99) (Some 1)) 9 base_db =
    (Err (DoesNotExist "Chain"), base_db).
Proof.
  split_and!.
  - apply (group_clean_token_chain base_db (a_group (Some 1) (Some 1)) 1
             (ERC20Token.pre_save true 4 (usdc 1)) 9); reflexivity.
  - apply (group_clean_token_chain base_db (a_group (Some 2) (Some 1)) 1
             (ERC20Token.pre_save true 4 (usdc 1)) 9);
      [reflexivity|reflexivity|discriminate| |by eexists].
    intros c [= <-]. by eexists.
  - apply (group_clean_token_chain base_db (a_group (Some 99) (Some 1)) 1
             (ERC20Token.pre_save true 4 (usdc 1)) 9);
      [reflexivity|reflexivity|].
    left. by exists 99.
Defined.

(** C1 as stated fails: save() does not run clean(), so the group on chain 1
    with the token of chain 2 is written to the reachable database
    [mismatched_db]. *)
Lemma mismatched_group_is_persisted :
  reachable mismatched_db ∧
  save_group None (a_group (Some 1) (Some 2)) 9 base_db = (Ok 1, mismatched_db) ∧
  (∃ g t,
     groups mismatched_db !! 1 = Some g ∧
     PaymentGroup.token g = Some 2 ∧ PaymentGroup.chain g = Some 1 ∧
     tokens mismatched_db !! 2 = Some t ∧ ERC20Token.chain t = 2) ∧
  ¬ token_on_group_chain mismatched_db.
Proof.
  assert (groups mismatched_db !! 1 =
          Some (PaymentGroup.pre_save true 9 (a_group (Some 1) (Some 2))))
    as Hgroup by (vm_compute; reflexivity).
  assert (tokens mismatched_db !! 2 =
          Some (ERC20Token.pre_save true 5 (usdc 2)))
    as Htoken by (vm_compute; reflexivity).
  split_and!.
  - unfold mismatched_db, base_db. repeat constructor.
  - vm_compute. reflexivity.
  - exists (PaymentGroup.pre_save true 9 (a_group (Some 1) (Some 2))),
      (ERC20Token.pre_save true 5 (usdc 2)).
    by split_and!.
  - intros H. by pose proof (H 1 _ 2 _ Hgroup eq_refl Htoken).
Qed.

(** ** PaymentGroup: a token needs a chain *)




(** ** ERC20Token: one live row per address and chain *)




(** ** Payee: one live row per wallet and payment group *)


Lemma reports_elem field ok key :
  key ∈ reports field ok ↔ ok = false ∧ key = field.
Proof.
  unfold reports. destruct ok.
  - split; [by intros ?%not_elem_of_empty|by intros [? _]].
  - rewrite elem_of_singleton. split; [done|by intros [_ ?]].
Qed.

Lemma create_payee_fails checksum_ok p db :
  full_clean_payee_errors checksum_ok p db ≠ ∅ →
  create_payee checksum_ok p db =
    (Err (ValidationErrors (full_clean_payee_errors checksum_ok p db)), db).
Proof.
  intros Hne. unfold create_payee, full_clean_payee. by case_decide.
Qed.



(** ** Payee: a soft-deleted row frees its wallet and group *)







(** ** Payment: the payee must be a row *)




(** ** Payee: the wallet address is validated *)

Lemma hex_address_shape_length value :
  hex_address_shape value = true → String.length value = 42%nat.
Proof.
  unfold hex_address_shape. intros [[H _]%andb_prop _]%andb_prop.
  by apply Nat.eqb_eq.
Qed.

Lemma hex_address_shape_prefix value :
  hex_address_shape value = true → String.prefix "0x" value = true.
Proof.
  unfold hex_address_shape. by intros [[_ H]%andb_prop _]%andb_prop.
Qed.

Lemma is_hex_digit_spec c :
  is_hex_digit c = true ↔ c ∈ hex_digits.
Proof.
  assert (is_hex_digit c = bool_decide (c ∈ hex_digits)) as ->.
  { destruct c as [[] [] [] [] [] [] [] []]; vm_compute; reflexivity. }
  apply bool_decide_eq_true.
Qed.

Lemma all_hex_spec s :
  all_hex s = true ↔ Forall (λ c, c ∈ hex_digits) (list_ascii_of_string s).
Proof.
  induction s as [|c s IH]; simpl.
  - split; [constructor|done].
  - rewrite andb_true_iff, Forall_cons, IH, is_hex_digit_spec. done.
Qed.

Lemma hex_address_shape_digits value :
  hex_address_shape value = true →
  Forall (λ c, c ∈ hex_digits)
    (list_ascii_of_string (String.substring 2 40 value)).
Proof.
  unfold hex_address_shape. intros [_ H]%andb_prop. by apply all_hex_spec.
Qed.

Lemma clean_fields_payee_elem checksum_ok p db key :
  key ∈ clean_fields_payee checksum_ok p db ↔
  (char_field_ok 255 (Payee.name p) = false ∧ key = "name") ∨
  (char_field_ok 255 (Payee.wallet p) &&
     is_ok (validate_ethereum_address checksum_ok (Payee.wallet p)) = false ∧
   key = "wallet") ∨
  (fk_ok (groups db) (Payee.payment_group p) = false ∧
   key = "payment_group") ∨
  (fits (Payee.amount p) = false ∧ key = "amount").
Proof.
  unfold clean_fields_payee. rewrite !elem_of_union, !reports_elem. tauto.
Qed.

Lemma full_clean_payee_errors_elem checksum_ok p db key :
  key ∈ full_clean_payee_errors checksum_ok p db →
  key ∈ clean_fields_payee checksum_ok p db ∨ key = "__all__".
Proof.
  unfold full_clean_payee_errors, validate_constraints_payee.
  rewrite elem_of_union, reports_elem. tauto.
Qed.

(** C7 (amended): validating a Payee, as a validated creation does before
    it saves, checks its wallet address: a value that is not 42 characters
    long, does not start with 0x, has a character after it that is not a
    hexadecimal digit or fails the checksum, and so the value
    not-an-address, is refused by the validator, full_clean() reports the
    field wallet, and the creation fails with a ValidationError and leaves
    the database as it was; the address part of a value is well-formed
    exactly when it is 0x and forty hexadecimal digits, and such a value
    that passes the checksum is not reported. *)
Theorem payee_wallet_is_validated
    (checksum_ok : string → bool) (p : Payee.t) (db : DB) :
  (String.length (Payee.wallet p) ≠ 42%nat ∨
   String.prefix "0x" (Payee.wallet p) = false ∨
   ¬ Forall (λ c, c ∈ hex_digits)
       (list_ascii_of_string (String.substring 2 40 (Payee.wallet p))) ∨
   checksum_ok (Payee.wallet p) = false ∨
   Payee.wallet p = "not-an-address" →
   is_ok (validate_ethereum_address checksum_ok (Payee.wallet p)) = false ∧
   "wallet" ∈ full_clean_payee_errors checksum_ok p db ∧
   ∃ fields,
     "wallet" ∈ fields ∧
     create_payee checksum_ok p db = (Err (ValidationErrors fields), db)) ∧
  (hex_address_shape (Payee.wallet p) = true ↔
     String.length (Payee.wallet p) = 42%nat ∧
     String.prefix "0x" (Payee.wallet p) = true ∧
     Forall (λ c, c ∈ hex_digits)
       (list_ascii_of_string (String.substring 2 40 (Payee.wallet p)))) ∧
  (hex_address_shape (Payee.wallet p) = true →
   checksum_ok (Payee.wallet p) = true →
   validate_ethereum_address checksum_ok (Payee.wallet p) = Ok tt ∧
   "wallet" ∉ full_clean_payee_errors checksum_ok p db).
Proof.
  assert (hex_address_shape (Payee.wallet p) = true ↔
     String.length (Payee.wallet p) = 42%nat ∧
     String.prefix "0x" (Payee.wallet p) = true ∧
     Forall (λ c, c ∈ hex_digits)
       (list_ascii_of_string (String.substring 2 40 (Payee.wallet p))))
    as Hshape.
  { unfold hex_address_shape.
    rewrite !andb_true_iff, Nat.eqb_eq, all_hex_spec. tauto. }
  split_and!; [|exact Hshape|].
  - intros Hbad.
    assert (hex_address_shape (Payee.wallet p) && checksum_ok (Payee.wallet p)
            = false) as Hrej.
    { apply andb_false_iff.
      pose proof (proj1 Hshape) as Hparts.
      destruct (hex_address_shape (Payee.wallet p)) eqn:Hsh; [|by left].
      destruct (Hparts eq_refl) as (Hlen & Hpre & Hdig).
      destruct Hbad as [?|[?|[?|[?|Hname]]]]; auto; try congruence.
      rewrite Hname in Hlen. discriminate Hlen. }
    assert (is_ok (validate_ethereum_address checksum_ok (Payee.wallet p))
            = false) as Hval
      by (unfold validate_ethereum_address; by rewrite Hrej).
    assert ("wallet" ∈ full_clean_payee_errors checksum_ok p db) as Hin.
    { unfold full_clean_payee_errors. apply elem_of_union_l.
      apply clean_fields_payee_elem. right; left.
      by rewrite Hval, andb_false_r. }
    split_and!; [done..|].
    eexists. split; [exact Hin|]. apply create_payee_fails.
    intros He. rewrite He in Hin. by apply not_elem_of_empty in Hin.
  - intros Hsh Hsum.
    assert (validate_ethereum_address checksum_ok (Payee.wallet p) = Ok tt)
      as Hval by (unfold validate_ethereum_address; by rewrite Hsh, Hsum).
    split; [done|].
    assert (char_field_ok 255 (Payee.wallet p) = true) as Hlen.
    { apply hex_address_shape_length in Hsh. unfold char_field_ok.
      rewrite Hsh. destruct (Payee.wallet p); [done|]. done. }
    intros [Hin|?]%full_clean_payee_errors_elem; [|done].
    apply clean_fields_payee_elem in Hin.
    rewrite Hval, Hlen in Hin.
    by destruct Hin as [[_ ?]|[[? _]|[[_ ?]|[_ ?]]]].
Qed.

(** The theorem at the payee whose wallet is not-an-address, with a checksum
    that accepts everything, and at a second payee of group 1 with a
    well-formed address. *)
Lemma payee_wallet_is_validated_witness :
  (∃ fields,
     "wallet" ∈ fields ∧
     create_payee (λ _, true)
       (Payee.mk None None "Bob" "not-an-address" 1 10) payee_db =
       (Err (ValidationErrors fields), payee_db)) ∧
  validate_ethereum_address (λ _, true)
    "0xde709f2102306220921060314715629080e2fb77" = Ok tt.
Proof.
  split.
  - apply (payee_wallet_is_validated (λ _, true)
             (Payee.mk None None "Bob" "not-an-address" 1 10) payee_db).
    right; right; right; right. reflexivity.
  - apply (payee_wallet_is_validated (λ _, true)
             (Payee.mk None None "Carol"
                "0xde709f2102306220921060314715629080e2fb77" 1 5) payee_db);
      reflexivity.
Defined.

(** C7 as stated fails: save(), which objects.create() runs, calls no
    validator, so a payee whose wallet is not-an-address is stored in the
    reachable database [unvalidated_payee_db]. *)
Lemma malformed_wallet_is_saved :
  reachable unvalidated_payee_db ∧
  save_payee None (Payee.mk None None "Bob" "not-an-address" 1 10) payee_db =
    (Ok 2, unvalidated_payee_db) ∧
  payees unvalidated_payee_db !! 2 =
    Some (Payee.mk None None "Bob" "not-an-address" 1 10).
Proof.
  split_and!.
  - unfold unvalidated_payee_db, payee_db, base_db. repeat constructor.
  - vm_compute. reflexivity.
  - reflexivity.
Qed.

(** ** Chain: deletion removes the rows that depend on it *)

Lemma lookup_purged `{Countable K} {A} (s : gset K) (m : gmap K A) i :
  i ∈ s → filter (λ kv, kv.1 ∉ s) m !! i = None.
Proof.
  intros Hi. apply map_lookup_filter_None. right. intros x _ Hkeep.
  by apply Hkeep.
Qed.

Lemma purged_elem `{Countable K} {A} (s : gset K) (m : gmap K A) i :
  is_Some (m !! i) → filter (λ kv, kv.1 ∉ s) m !! i = None → i ∈ s.
Proof.
  intros [x Hx] Hnone. destruct (decide (i ∈ s)) as [|Hout]; [done|].
  assert (filter (λ kv, kv.1 ∉ s) m !! i = Some x) as Hsome
    by by apply lookup_kept.
  congruence.
Qed.

(** C10: a Chain row has a name, a chain_id and a native currency and no
    deletion marker; deleting a chain removes its row, every ERC20Token and
    every PaymentGroup that refers to it or to one of its tokens, live or
    soft-deleted, every Payee of a removed group and every Payment of a
    removed payee; the rows that stay are unchanged. *)
Theorem chain_delete_removes_dependents (db : DB) (key : Z) :
  (∀ c : Chain.t,
     c = Chain.mk (Chain.name c) (Chain.chain_id c) (Chain.native_currency c)) ∧
  chains (delete_chain key db) !! key = None ∧
  (∀ i t, tokens db !! i = Some t → ERC20Token.chain t = key →
     tokens (delete_chain key db) !! i = None) ∧
  (∀ i g, groups db !! i = Some g → PaymentGroup.chain g = Some key →
     groups (delete_chain key db) !! i = None) ∧
  (∀ i g k t, groups db !! i = Some g → PaymentGroup.token g = Some k →
     tokens db !! k = Some t → ERC20Token.chain t = key →
     groups (delete_chain key db) !! i = None) ∧
  (∀ i p, payees db !! i = Some p →
     is_Some (groups db !! Payee.payment_group p) →
     groups (delete_chain key db) !! Payee.payment_group p = None →
     payees (delete_chain key db) !! i = None) ∧
  (∀ i y, payments db !! i = Some y →
     is_Some (payees db !! Payment.payee y) →
     payees (delete_chain key db) !! Payment.payee y = None →
     payments (delete_chain key db) !! i = None) ∧
  (∀ i t, tokens (delete_chain key db) !! i = Some t →
     tokens db !! i = Some t ∧ ERC20Token.chain t ≠ key) ∧
  (∀ i g, groups (delete_chain key db) !! i = Some g →
     groups db !! i = Some g ∧ PaymentGroup.chain g ≠ Some key) ∧
  (∀ i p, payees (delete_chain key db) !! i = Some p →
     payees db !! i = Some p) ∧
  (∀ i y, payments (delete_chain key db) !! i = Some y →
     payments db !! i = Some y).
Proof.
  unfold delete_chain, delete, purge, collect. simpl.
  assert (∀ i t, tokens db !! i = Some t → ERC20Token.chain t = key →
    i ∈ (∅ : gset Z) ∪ dom (filter (λ kt : Z * ERC20Token.t,
                      ERC20Token.chain kt.2 ∈ ({[key]} : gset Z)) (tokens db)))
    as Htok.
  { intros i t Hi Hc. apply elem_of_union_r, elem_of_dom_filter.
    exists t. split; [done|]. simpl. rewrite Hc. by apply elem_of_singleton. }
  split_and!.
  - by intros [].
  - apply lookup_purged. by apply elem_of_singleton.
  - intros i t Hi Hc. apply lookup_purged. eauto.
  - intros i g Hi Hc. apply lookup_purged, elem_of_union_r, elem_of_dom_filter.
    exists g. split; [done|]. right; left. apply refers_true.
    exists key. split; [done|]. by apply elem_of_singleton.
  - intros i g k t Hi Hk Ht Hc.
    apply lookup_purged, elem_of_union_r, elem_of_dom_filter.
    exists g. split; [done|]. right; right. apply refers_true. eauto.
  - intros i p Hi Hg Hgone. apply purged_elem in Hgone; [|done].
    apply lookup_purged, elem_of_union_r, elem_of_dom_filter. eauto.
  - intros i y Hi Hp Hgone. apply purged_elem in Hgone; [|done].
    apply lookup_purged, elem_of_union_r, elem_of_dom_filter. eauto.
  - intros i t [Hi Hkeep]%lookup_kept. split; [done|].
    intros Hc. apply Hkeep. eauto.
  - intros i g [Hi Hkeep]%lookup_kept. split; [done|].
    intros Hc. apply Hkeep, elem_of_union_r, elem_of_dom_filter.
    exists g. split; [done|]. right; left. apply refers_true.
    exists key. split; [done|]. by apply elem_of_singleton.
  - by intros i p [Hi _]%lookup_kept.
  - by intros i y [Hi _]%lookup_kept.
Qed.

(** Deleting chain 1 from [deleted_payee_db] with one payment added: token 1,
    group 1, the soft-deleted payee 1 and its payment are gone, chain 2 and
    its token stay. *)
Lemma chain_delete_example :
  let db := (create_payment (a_payment 1) 9 deleted_payee_db).2 in
  let db' := delete_chain 1 db in
  (is_Some (tokens db !! 1) ∧ is_Some (groups db !! 1) ∧
   is_Some (payees db !! 1) ∧ is_Some (payments db !! 1)) ∧
  chains db' !! 1 = None ∧ tokens db' !! 1 = None ∧ groups db' !! 1 = None ∧
  payees db' !! 1 = None ∧ payments db' !! 1 = None ∧
  chains db' !! 2 = Some polygon ∧ tokens db' !! 2 = tokens db !! 2.
Proof. vm_compute. split_and!; eauto. Qed.

(** ** Chain: chain_id is unique *)







(** ** Foreign keys: no reachable database has a dangling reference *)

(** X2: in every reachable database each foreign key names a row of its
    table: a token its chain, a group its wallet and, when set, its chain
    and token, a payee its payment group and a payment its payee.  Saves
    check the new row, and a delete takes the referring rows with it. *)
Theorem foreign_keys_resolve (db : DB) :
  reachable db →
  (∀ i t, tokens db !! i = Some t →
     is_Some (chains db !! ERC20Token.chain t)) ∧
  (∀ i g, groups db !! i = Some g →
     is_Some (wallets db !! PaymentGroup.wallet g) ∧
     (∀ c, PaymentGroup.chain g = Some c → is_Some (chains db !! c)) ∧
     (∀ k, PaymentGroup.token g = Some k → is_Some (tokens db !! k))) ∧
  (∀ i p, payees db !! i = Some p →
     is_Some (groups db !! Payee.payment_group p)) ∧
  (∀ i y, payments db !! i = Some y →
     is_Some (payees db !! Payment.payee y)).
Proof. apply reachable_fk. Qed.

(** The theorem at [payee_db]. *)
Lemma foreign_keys_resolve_witness :
  is_Some (groups payee_db !! Payee.payment_group (a_payee None 1)).
Proof.
  refine (proj1 (proj2 (proj2 (foreign_keys_resolve payee_db _)))
            1 (a_payee None 1) eq_refl).
  unfold payee_db, base_db. repeat constructor.
Defined.

(** ** ERC20Token: what a save stores *)

(** X3: a save of a token that succeeds stores the instance, with
    updated_at set to the time of the save and created_at set to it when
    the row is new and left as the instance carries it otherwise, under the
    key of the instance when it has one and under a new key otherwise: one
    that is not in use and, in a reachable database, was not in use in any
    database it was reached from, so that the key of a deleted row is not
    handed out again; the other rows of the table and the other tables are
    left as they were. *)
Theorem save_token_stores
    (db db' : DB) (self : option Z) (t : ERC20Token.t) (now key : Z) :
  save_token self t now db = (Ok key, db') →
  (∀ k, self = Some k → key = k) ∧
  (self = None →
     tokens db !! key = None ∧
     ∀ db0, reachable db0 → follows db0 db → tokens db0 !! key = None) ∧
  tokens db' !! key =
    Some (ERC20Token.mk (ERC20Token.deleted_at t) (ERC20Token.restored_at t)
            (if bool_decide (tokens db !! key = None) then now
             else ERC20Token.created_at t)
            now (ERC20Token.name t) (ERC20Token.symbol t)
            (ERC20Token.address t) (ERC20Token.chain t)) ∧
  (∀ j, j ≠ key → tokens db' !! j = tokens db !! j) ∧
  chains db' = chains db ∧ wallets db' = wallets db ∧
  groups db' = groups db ∧ payees db' = payees db ∧
  payments db' = payments db.
Proof.
  unfold save_token. case_bool_decide; [done|].
  destruct (negb _); [done|]. intros [= <- <-]. simpl.
  split_and!; try done.
  - by intros k ->.
  - intros ->. split; [apply next_pk_fresh|].
    intros db0 Hreach Hfollows.
    destruct (tokens db0 !! target (tokens db) (token_seq db) None)
      as [u|] eqn:Hu; [|done].
    pose proof (reachable_token_keys db0 Hreach _ (mk_is_Some _ _ Hu)) as Hle.
    pose proof (follows_token_seq db0 db Hfollows).
    pose proof (next_pk_past_seq (tokens db) (token_seq db)).
    unfold target in Hle. simpl in Hle. lia.
  - apply lookup_insert_eq.
  - intros j Hne. by apply lookup_insert_ne.
Qed.

(** The theorem at [pruned_db], where token 2 of the small database was
    deleted: a new token gets key 3, which [base_db] did not use, and not
    key 2. *)
Lemma save_token_stores_witness :
  tokens pruned_db !! 2 = None ∧
  save_token None dai 9 pruned_db = (Ok 3, exec (SaveToken None dai) 9 pruned_db) ∧
  tokens base_db !! 3 = None.
Proof.
  assert (save_token None dai 9 pruned_db =
          (Ok 3, exec (SaveToken None dai) 9 pruned_db)) as Hsave
    by (vm_compute; reflexivity).
  split; [vm_compute; reflexivity|]. split; [exact Hsave|].
  destruct (save_token_stores _ _ _ _ _ _ Hsave) as (_ & Hnew & _).
  destruct (Hnew eq_refl) as [_ Hold].
  apply Hold.
  - unfold base_db. repeat constructor.
  - unfold pruned_db. apply follows_exec, follows_here.
Defined.

(** ** ERC20Token: saving a stored row again *)

Lemma save_token_ok self t now db :
  ¬ token_clash (tokens db) self
      (ERC20Token.pre_save
         (bool_decide
            (tokens db !! target (tokens db) (token_seq db) self = None))
         now t) →
  is_Some (chains db !! ERC20Token.chain t) →
  save_token self t now db =
    (Ok (target (tokens db) (token_seq db) self),
     put_token (target (tokens db) (token_seq db) self)
       (ERC20Token.pre_save
          (bool_decide
             (tokens db !! target (tokens db) (token_seq db) self = None))
          now t) db).
Proof.
  intros Hclash Hfk%fk_ok_true. unfold save_token.
  rewrite bool_decide_eq_false_2 by done. simpl. by rewrite Hfk.
Qed.

(** X4: in a reachable database a stored token can always be saved again
    with other values for name and symbol, as long as its address, chain
    and deletion marker are the ones stored: the row does not clash with
    itself, the save keeps its key and created_at and sets updated_at. *)
Theorem save_stored_token_again
    (db : DB) (key : Z) (t t' : ERC20Token.t) (now : Z) :
  reachable db →
  tokens db !! key = Some t →
  ERC20Token.deleted_at t' = ERC20Token.deleted_at t →
  ERC20Token.address t' = ERC20Token.address t →
  ERC20Token.chain t' = ERC20Token.chain t →
  ERC20Token.created_at t' = ERC20Token.created_at t →
  ∃ db',
    save_token (Some key) t' now db = (Ok key, db') ∧
    tokens db' !! key =
      Some (ERC20Token.mk (ERC20Token.deleted_at t) (ERC20Token.restored_at t')
              (ERC20Token.created_at t) now (ERC20Token.name t')
              (ERC20Token.symbol t') (ERC20Token.address t)
              (ERC20Token.chain t)) ∧
    live_tokens_unique db'.
Proof.
  intros Hreach Hkey Hd Ha Hc Hcr.
  pose proof (reachable_fk db Hreach) as (Hfk & _).
  pose proof (reachable_tokens_unique db Hreach) as Huniq.
  eexists. split_and!.
  - apply save_token_ok.
    + intros [Hlive (j & u & Hj & Hne & Hu & Hau & Hcu)]. simpl in *.
      apply Hne. f_equal. eapply (Huniq j key u t); eauto; congruence.
    + rewrite Hc. eauto.
  - simpl. rewrite lookup_insert_eq. unfold ERC20Token.pre_save.
    rewrite bool_decide_eq_false_2 by (rewrite Hkey; done).
    by rewrite Hd, Ha, Hc, Hcr.
  - pose proof (save_token_unique (Some key) t' now db Huniq) as H.
    rewrite save_token_ok in H; [done| |rewrite Hc; eauto].
    intros [Hlive (j & u & Hj & Hne & Hu & Hau & Hcu)]. simpl in *.
    apply Hne. f_equal. eapply (Huniq j key u t); eauto; congruence.
Qed.

(** The theorem at the small database: token 1 is renamed at time 9. *)
Lemma save_stored_token_again_witness :
  ∃ db',
    save_token (Some 1) (ERC20Token.mk None None 4 4 "USDC" "USDC" "0xA0b8" 1)
      9 base_db = (Ok 1, db') ∧
    tokens db' !! 1 =
      Some (ERC20Token.mk None None 4 9 "USDC" "USDC" "0xA0b8" 1) ∧
    live_tokens_unique db'.
Proof.
  apply (save_stored_token_again base_db 1
           (ERC20Token.pre_save true 4 (usdc 1))
           (ERC20Token.mk None None 4 4 "USDC" "USDC" "0xA0b8" 1) 9);
    try reflexivity.
  unfold base_db. repeat constructor.
Defined.

(** ** ERC20Token: a soft-deleted row frees its address and chain *)



(** ** Chain: what a deletion leaves alone *)

Lemma filter_keeps_all `{Countable K} {A} (m : gmap K A) :
  filter (λ kv, kv.1 ∉ (∅ : gset K)) m = m.
Proof. apply map_filter_id. intros i x _. simpl. set_solver. Qed.

Lemma collected_token key (db : DB) i :
  i ∈ (∅ : gset Z) ∪ dom (filter (λ kt : Z * ERC20Token.t,
         ERC20Token.chain kt.2 ∈ ({[key]} : gset Z)) (tokens db)) ↔
  ∃ t, tokens db !! i = Some t ∧ ERC20Token.chain t = key.
Proof.
  rewrite elem_of_union, elem_of_dom_filter. simpl.
  setoid_rewrite elem_of_singleton. split; [|eauto].
  by intros [?%not_elem_of_empty|?].
Qed.

(** X6: deleting a chain leaves every wallet and every other chain in place,
    and with them each token of another chain, each group that neither sits
    on the chain nor names one of its tokens, each payee whose group stays
    and each payment whose payee stays. *)
Theorem chain_delete_spares_the_rest (db : DB) (key : Z) :
  wallets (delete_chain key db) = wallets db ∧
  (∀ j, j ≠ key → chains (delete_chain key db) !! j = chains db !! j) ∧
  (∀ i t, tokens db !! i = Some t → ERC20Token.chain t ≠ key →
     tokens (delete_chain key db) !! i = Some t) ∧
  (∀ i g, groups db !! i = Some g → PaymentGroup.chain g ≠ Some key →
     (∀ k t, PaymentGroup.token g = Some k → tokens db !! k = Some t →
        ERC20Token.chain t ≠ key) →
     groups (delete_chain key db) !! i = Some g) ∧
  (∀ i p, payees db !! i = Some p →
     (∀ g, groups db !! Payee.payment_group p = Some g →
        groups (delete_chain key db) !! Payee.payment_group p = Some g) →
     payees (delete_chain key db) !! i = Some p) ∧
  (∀ i y, payments db !! i = Some y →
     (∀ p, payees db !! Payment.payee y = Some p →
        payees (delete_chain key db) !! Payment.payee y = Some p) →
     payments (delete_chain key db) !! i = Some y).
Proof.
  unfold delete_chain, delete, purge, collect. simpl.
  split_and!.
  - apply filter_keeps_all.
  - intros j Hne. destruct (chains db !! j) as [c|] eqn:Hj.
    + apply lookup_kept. split; [done|]. by intros ?%elem_of_singleton.
    + apply map_lookup_filter_None. by left.
  - intros i t Hi Hc. apply lookup_kept. split; [done|].
    intros (u & Hu & Hcu)%collected_token. congruence.
  - intros i g Hi Hc Htok. apply lookup_kept. split; [done|].
    intros [?%not_elem_of_empty|Hin]%elem_of_union; [done|].
    apply elem_of_dom_filter in Hin as (g' & Hg' & Hwhy).
    assert (g' = g) as -> by congruence. simpl in Hwhy.
    destruct Hwhy as [?%not_elem_of_empty|[Hr|Hr]]; [done| |].
    + apply refers_true in Hr as (c & Hgc & ->%elem_of_singleton). congruence.
    + apply refers_true in Hr as (k & Hgk & (t & Ht & Hct)%collected_token).
      by eapply Htok.
  - intros i p Hi Hstay. apply lookup_kept. split; [done|].
    intros [?%not_elem_of_empty|Hin]%elem_of_union; [done|].
    apply elem_of_dom_filter in Hin as (p' & Hp' & Hg).
    assert (p' = p) as -> by congruence. simpl in Hg.
    destruct (groups db !! Payee.payment_group p) as [g|] eqn:Hgrp.
    + specialize (Hstay g eq_refl).
      apply lookup_kept in Hstay as [_ Hout]. by apply Hout.
    + apply elem_of_union in Hg as [?%not_elem_of_empty|Hg]; [done|].
      apply elem_of_dom in Hg as [g Hg].
      apply map_lookup_filter_Some in Hg as [Hg _]. congruence.
  - intros i y Hi Hstay. apply lookup_kept. split; [done|].
    intros [?%not_elem_of_empty|Hin]%elem_of_union; [done|].
    apply elem_of_dom_filter in Hin as (y' & Hy' & Hp).
    assert (y' = y) as -> by congruence. simpl in Hp.
    destruct (payees db !! Payment.payee y) as [p|] eqn:Hpayee.
    + specialize (Hstay p eq_refl).
      apply lookup_kept in Hstay as [_ Hout]. by apply Hout.
    + apply elem_of_union in Hp as [?%not_elem_of_empty|Hp]; [done|].
      apply elem_of_dom in Hp as [p Hp].
      apply map_lookup_filter_Some in Hp as [Hp _]. congruence.
Qed.

(** The theorem at [payee_db]: deleting chain 2 keeps token 1. *)
Lemma chain_delete_spares_the_rest_witness :
  tokens (delete_chain 2 payee_db) !! 1 =
    Some (ERC20Token.pre_save true 4 (usdc 1)).
Proof.
  apply (chain_delete_spares_the_rest payee_db 2); [reflexivity|discriminate].
Defined.

(** ** Chain: deleting what is not there *)

Lemma delete_chain_nothing_to_do (db : DB) (key : Z) :
  chains db !! key = None →
  (∀ i t, tokens db !! i = Some t → ERC20Token.chain t ≠ key) →
  (∀ i g, groups db !! i = Some g → PaymentGroup.chain g ≠ Some key) →
  delete_chain key db = db.
Proof.
  intros Hchain Htok Hgrp.
  assert (∀ i, ¬ i ∈ (∅ : gset Z) ∪ dom (filter (λ kt : Z * ERC20Token.t,
            ERC20Token.chain kt.2 ∈ ({[key]} : gset Z)) (tokens db))) as Hts.
  { intros i (t & Ht & Hc)%collected_token. by eapply Htok. }
  unfold delete_chain, delete, purge, collect. simpl.
  set (ts := ∅ ∪ dom (filter _ (tokens db))) in *.
  set (gs := ∅ ∪ dom (filter _ (groups db))).
  assert (∀ i, i ∉ gs) as Hgs.
  { intros i [?%not_elem_of_empty|Hin]%elem_of_union; [done|].
    apply elem_of_dom_filter in Hin as (g & Hg & Hwhy). simpl in Hwhy.
    destruct Hwhy as [?%not_elem_of_empty|[Hr|Hr]]; [done| |].
    - apply refers_true in Hr as (c & Hgc & ->%elem_of_singleton).
      by eapply Hgrp.
    - apply refers_true in Hr as (k & _ & Hk). by eapply Hts. }
  set (ps := ∅ ∪ dom (filter _ (payees db))).
  assert (∀ i, i ∉ ps) as Hps.
  { intros i [?%not_elem_of_empty|Hin]%elem_of_union; [done|].
    apply elem_of_dom_filter in Hin as (p & _ & Hg). by eapply Hgs. }
  set (ys := ∅ ∪ dom (filter _ (payments db))).
  assert (∀ i, i ∉ ys) as Hys.
  { intros i [?%not_elem_of_empty|Hin]%elem_of_union; [done|].
    apply elem_of_dom_filter in Hin as (y & _ & Hp). by eapply Hps. }
  destruct db as [cs ws tks grs pys pms]. simpl in *. f_equal.
  - apply map_filter_id. intros i c Hi ?%elem_of_singleton. simpl in *.
    congruence.
  - apply filter_keeps_all.
  - apply map_filter_id. intros i x _. apply Hts.
  - apply map_filter_id. intros i x _. apply Hgs.
  - apply map_filter_id. intros i x _. apply Hps.
  - apply map_filter_id. intros i x _. apply Hys.
Qed.

(** X7: deleting a chain twice is deleting it once, and in a reachable
    database deleting a chain that is not in the table changes nothing. *)
Theorem chain_delete_once_is_enough (db : DB) (key : Z) :
  delete_chain key (delete_chain key db) = delete_chain key db ∧
  (reachable db → chains db !! key = None → delete_chain key db = db).
Proof.
  split.
  - apply delete_chain_nothing_to_do.
    + unfold delete_chain, delete, purge, collect. simpl.
      apply map_lookup_filter_None. right. intros c _ Hout. simpl in Hout.
      by apply Hout, elem_of_singleton.
    + unfold delete_chain, delete, purge, collect. simpl.
      intros i t [Hi Hout]%lookup_kept Hc. apply Hout, collected_token. eauto.
    + unfold delete_chain, delete, purge, collect. simpl.
      intros i g [Hi Hout]%lookup_kept Hc.
      apply Hout, elem_of_union_r, elem_of_dom_filter.
      exists g. split; [done|]. right; left. apply refers_true.
      exists key. split; [done|]. by apply elem_of_singleton.
  - intros Hreach Hnone.
    destruct (reachable_fk db Hreach) as (Htok & Hgrp & _).
    apply delete_chain_nothing_to_do; [done| |].
    + intros i t Hi Hc. destruct (Htok i t Hi) as [c Hsome]. congruence.
    + intros i g Hi Hc. destruct (Hgrp i g Hi) as (_ & Hchain & _).
      destruct (Hchain key Hc) as [c Hsome]. congruence.
Qed.

(** The theorem at the small database, which has no chain 7. *)
Lemma chain_delete_once_is_enough_witness : delete_chain 7 base_db = base_db.
Proof.
  apply (chain_delete_once_is_enough base_db 7); [|reflexivity].
  unfold base_db. repeat constructor.
Defined.

(** ** PaymentGroup: when a validated creation succeeds *)





(** ** PaymentGroup: the deletion marker of its token is not looked at *)

Lemma fk_null_ok_insert {A} (m : gmap Z A) k x o :
  is_Some (m !! k) → fk_null_ok (<[k := x]> m) o = fk_null_ok m o.
Proof.
  intros Hk. destruct o as [j|]; [|done]. simpl. unfold fk_ok.
  apply bool_decide_ext. rewrite lookup_insert_is_Some.
  split.
  - by intros [<-|[_ ?]].
  - intros Hj. destruct (decide (k = j)); auto.
Qed.

(** X9: setting or clearing the deletion marker of a token changes neither
    what clean() answers for a group nor whether the group can be created:
    a group may name a soft-deleted token. *)
Theorem group_ignores_token_marker
    (db : DB) (g : PaymentGroup.t) (now k : Z) (t : ERC20Token.t)
    (d : option Z) :
  tokens db !! k = Some t →
  PaymentGroup.clean (chains db)
    (<[k := ERC20Token.set_deleted_at d t]> (tokens db)) g =
    PaymentGroup.clean (chains db) (tokens db) g ∧
  (create_group g now
     (set_tokens (<[k := ERC20Token.set_deleted_at d t]> (tokens db)) db)).1 =
    (create_group g now db).1.
Proof.
  intros Hk.
  assert (PaymentGroup.clean (chains db)
            (<[k := ERC20Token.set_deleted_at d t]> (tokens db)) g =
          PaymentGroup.clean (chains db) (tokens db) g) as Hclean.
  { unfold PaymentGroup.clean, related.
    destruct (PaymentGroup.token g) as [j|]; [|done].
    destruct (decide (j = k)) as [->|Hne].
    - by rewrite lookup_insert_eq, Hk.
    - by rewrite lookup_insert_ne. }
  split; [done|].
  unfold create_group, full_clean_group, clean_fields_group. simpl.
  rewrite Hclean, (fk_null_ok_insert (tokens db)) by eauto.
  destruct (PaymentGroup.clean (chains db) (tokens db) g) as [[]|e];
    [|by destruct e].
  case_decide; [|done].
  unfold save_group. simpl.
  rewrite (fk_null_ok_insert (tokens db)) by eauto.
  by repeat case_match.
Qed.

(** The theorem at the small database: with token 1 marked deleted, the
    group on chain 1 that names it is still created. *)
Lemma group_ignores_token_marker_witness :
  (create_group (a_group (Some 1) (Some 1)) 9
     (set_tokens
        (<[1 := ERC20Token.set_deleted_at (Some 8)
                  (ERC20Token.pre_save true 4 (usdc 1))]> (tokens base_db))
        base_db)).1 = Ok 1.
Proof.
  rewrite (proj2 (group_ignores_token_marker base_db
                    (a_group (Some 1) (Some 1)) 9 1
                    (ERC20Token.pre_save true 4 (usdc 1)) (Some 8) eq_refl)).
  reflexivity.
Defined.

(** ** Payee: updates against the partial index *)



(** ** ERC20Token: its chain can be changed under the groups that name it *)

(** X11: a save of a token is not checked against the groups that name it:
    when a group names the token and sits on another chain than the one
    the token is saved with, a save that the database accepts leaves the
    groups as they were and the group off the chain of its token. *)
Theorem token_save_ignores_groups
    (db db' : DB) (i k : Z) (g : PaymentGroup.t) (t' : ERC20Token.t)
    (now : Z) :
  groups db !! i = Some g →
  PaymentGroup.token g = Some k →
  PaymentGroup.chain g ≠ Some (ERC20Token.chain t') →
  save_token (Some k) t' now db = (Ok k, db') →
  groups db' = groups db ∧ ¬ token_on_group_chain db'.
Proof.
  intros Hi Hk Hne Hsave.
  unfold save_token in Hsave. simpl in Hsave.
  case_bool_decide; [done|]. destruct (negb _); [done|].
  injection Hsave as <-. split; [done|].
  intros Hinv. apply Hne.
  by apply (Hinv i g k _ Hi Hk (lookup_insert_eq _ _ _)).
Qed.

(** The theorem at [payee_db]: token 1, named by group 1 on chain 1, is
    moved to chain 2 under a new address. *)
Lemma token_save_ignores_groups_witness :
  save_token (Some 1) (ERC20Token.mk None None 4 4 "USD Coin" "USDC" "0xB0b8" 2)
    9 payee_db = (Ok 1, exec (SaveToken (Some 1)
      (ERC20Token.mk None None 4 4 "USD Coin" "USDC" "0xB0b8" 2)) 9 payee_db) ∧
  ¬ token_on_group_chain (exec (SaveToken (Some 1)
      (ERC20Token.mk None None 4 4 "USD Coin" "USDC" "0xB0b8" 2)) 9 payee_db).
Proof.
  assert (save_token (Some 1)
    (ERC20Token.mk None None 4 4 "USD Coin" "USDC" "0xB0b8" 2) 9 payee_db =
    (Ok 1, exec (SaveToken (Some 1)
      (ERC20Token.mk None None 4 4 "USD Coin" "USDC" "0xB0b8" 2)) 9 payee_db))
    as Hsave by (vm_compute; reflexivity).
  split; [exact Hsave|].
  apply (token_save_ignores_groups payee_db _ 1 1
           (PaymentGroup.pre_save true 6 (a_group (Some 1) (Some 1)))
           (ERC20Token.mk None None 4 4 "USD Coin" "USDC" "0xB0b8" 2) 9);
    [reflexivity|reflexivity|discriminate|exact Hsave].
Defined.

(** ** on_delete=CASCADE: a deleted row takes the rows that refer to it *)

(** X12: whatever rows a deletion starts from, those rows are removed, and
    so is every row whose foreign key named a row that was removed: a token
    of a removed chain, a group of a removed wallet, chain or token, a payee
    of a removed group, a payment of a removed payee; a row that stays is
    the row that was there. *)
Theorem delete_takes_dependents (seed : collected) (db : DB) :
  ((∀ i, i ∈ del_chains seed → chains (delete seed db) !! i = None) ∧
   (∀ i, i ∈ del_wallets seed → wallets (delete seed db) !! i = None) ∧
   (∀ i, i ∈ del_tokens seed → tokens (delete seed db) !! i = None) ∧
   (∀ i, i ∈ del_groups seed → groups (delete seed db) !! i = None) ∧
   (∀ i, i ∈ del_payees seed → payees (delete seed db) !! i = None) ∧
   (∀ i, i ∈ del_payments seed → payments (delete seed db) !! i = None)) ∧
  ((∀ i t, tokens db !! i = Some t →
      is_Some (chains db !! ERC20Token.chain t) →
      chains (delete seed db) !! ERC20Token.chain t = None →
      tokens (delete seed db) !! i = None) ∧
   (∀ i g, groups db !! i = Some g →
      is_Some (wallets db !! PaymentGroup.wallet g) →
      wallets (delete seed db) !! PaymentGroup.wallet g = None →
      groups (delete seed db) !! i = None) ∧
   (∀ i g c, groups db !! i = Some g → PaymentGroup.chain g = Some c →
      is_Some (chains db !! c) → chains (delete seed db) !! c = None →
      groups (delete seed db) !! i = None) ∧
   (∀ i g k, groups db !! i = Some g → PaymentGroup.token g = Some k →
      is_Some (tokens db !! k) → tokens (delete seed db) !! k = None →
      groups (delete seed db) !! i = None) ∧
   (∀ i p, payees db !! i = Some p →
      is_Some (groups db !! Payee.payment_group p) →
      groups (delete seed db) !! Payee.payment_group p = None →
      payees (delete seed db) !! i = None) ∧
   (∀ i y, payments db !! i = Some y →
      is_Some (payees db !! Payment.payee y) →
      payees (delete seed db) !! Payment.payee y = None →
      payments (delete seed db) !! i = None)) ∧
  ((∀ i c, chains (delete seed db) !! i = Some c → chains db !! i = Some c) ∧
   (∀ i w, wallets (delete seed db) !! i = Some w → wallets db !! i = Some w) ∧
   (∀ i t, tokens (delete seed db) !! i = Some t → tokens db !! i = Some t) ∧
   (∀ i g, groups (delete seed db) !! i = Some g → groups db !! i = Some g) ∧
   (∀ i p, payees (delete seed db) !! i = Some p → payees db !! i = Some p) ∧
   (∀ i y, payments (delete seed db) !! i = Some y →
      payments db !! i = Some y)).
Proof.
  unfold delete, purge, collect. simpl. split_and!.
  - intros i Hi. by apply lookup_purged.
  - intros i Hi. by apply lookup_purged.
  - intros i Hi. by apply lookup_purged, elem_of_union_l.
  - intros i Hi. by apply lookup_purged, elem_of_union_l.
  - intros i Hi. by apply lookup_purged, elem_of_union_l.
  - intros i Hi. by apply lookup_purged, elem_of_union_l.
  - intros i t Hi Hwas Hgone. apply purged_elem in Hgone; [|done].
    apply lookup_purged, elem_of_union_r, elem_of_dom_filter. eauto.
  - intros i g Hi Hwas Hgone. apply purged_elem in Hgone; [|done].
    apply lookup_purged, elem_of_union_r, elem_of_dom_filter. eauto.
  - intros i g c Hi Hc Hwas Hgone. apply purged_elem in Hgone; [|done].
    apply lookup_purged, elem_of_union_r, elem_of_dom_filter.
    exists g. split; [done|]. right; left. apply refers_true. eauto.
  - intros i g k Hi Hk Hwas Hgone. apply purged_elem in Hgone; [|done].
    apply lookup_purged, elem_of_union_r, elem_of_dom_filter.
    exists g. split; [done|]. right; right. apply refers_true. eauto.
  - intros i p Hi Hwas Hgone. apply purged_elem in Hgone; [|done].
    apply lookup_purged, elem_of_union_r, elem_of_dom_filter. eauto.
  - intros i y Hi Hwas Hgone. apply purged_elem in Hgone; [|done].
    apply lookup_purged, elem_of_union_r, elem_of_dom_filter. eauto.
  - by intros i x [? _]%lookup_kept.
  - by intros i x [? _]%lookup_kept.
  - by intros i x [? _]%lookup_kept.
  - by intros i x [? _]%lookup_kept.
  - by intros i x [? _]%lookup_kept.
  - by intros i x [? _]%lookup_kept.
Qed.

(** Deleting wallet alice from [payee_db]: group 1 and payee 1 are gone, the
    tokens stay. *)
Lemma delete_takes_dependents_example :
  let db' := delete (mkCollected ∅ {[alice]} ∅ ∅ ∅ ∅) payee_db in
  wallets db' !! alice = None ∧ groups db' !! 1 = None ∧
  payees db' !! 1 = None ∧ tokens db' = tokens payee_db.
Proof. vm_compute. done. Qed.

